(** * lora-image-cropper: crop-box geometry and export pipeline of [app.py]

    A shallow embedding of the three classes of [app.py]
    ([ResizeHandle], [DraggableRectItem], [ImageProcessor]) together with
    the parts of Python and of Qt they call.

    Conventions.
    - Python [str] values are modelled as [string], each character being
      the code point of that number: the model covers the strings whose
      code points are below 256, with Python's Unicode classes on them.
    - Qt's [qreal] coordinates ([QRectF], [QPointF], scene positions) are
      modelled as exact rationals [Q]; rounding of binary floating point is
      not modelled.  Qt's [int] coordinates ([QRect], [QPoint], [QSize])
      are modelled as [Z], assumed to stay inside the 32-bit range.
    - A Python exception leaving a method is an explicit [Raise] result.
    - Answers of the file dialogs, whether the file system accepts the
      JPEG file, whether Qt can allocate an image of a given size and the
      decoding of image files come from the environment and are inputs of
      the model. *)

From Stdlib Require Import ZArith QArith Qminmax Qabs Bool List Ascii String Lia Lqa.
From Stdlib Require Import DecimalString.
Import ListNotations.

Open Scope string_scope.

(** ** Results of fallible Python code *)

Inductive exn : Type :=
| ValueError (msg : string)
| IndexError.

Inductive result (A : Type) : Type :=
| Ok (a : A)
| Raise (e : exn).

Arguments Ok {A} a.
Arguments Raise {A} e.

Definition bind {A B : Type} (m : result A) (f : A -> result B) : result B :=
  match m with
  | Ok a => f a
  | Raise e => Raise e
  end.

Notation "x <- m ;; k" := (bind m (fun x => k))
  (at level 61, m at next level, right associativity).

(** ** The Python builtins used by [app.py] *)

Module Py.

(** [s.split(sep)] for a one-character separator: never an empty list. *)
Fixpoint split (sep : ascii) (s : string) : list string :=
  match s with
  | EmptyString => [EmptyString]
  | String c s' =>
      if Ascii.eqb c sep then EmptyString :: split sep s'
      else match split sep s' with
           | [] => [String c EmptyString]
           | w :: ws => String c w :: ws
           end
  end.

(** [l[i]] for [i >= 0]. *)
Definition index {A : Type} (l : list A) (i : nat) : result A :=
  match nth_error l i with
  | Some a => Ok a
  | None => Raise IndexError
  end.

(** [l[-1]]. *)
Fixpoint last {A : Type} (l : list A) : result A :=
  match l with
  | [] => Raise IndexError
  | [a] => Ok a
  | _ :: l' => last l'
  end.

Definition is_digit (c : ascii) : bool :=
  let n := nat_of_ascii c in (48 <=? n)%nat && (n <=? 57)%nat.

Definition digit_value (c : ascii) : Z := Z.of_nat (nat_of_ascii c) - 48.

(** White space around an integer literal: the characters of
    [str.isspace] below 256. *)
Definition is_space (c : ascii) : bool :=
  let n := nat_of_ascii c in
  ((9 <=? n)%nat && (n <=? 13)%nat) || ((28 <=? n)%nat && (n <=? 32)%nat) ||
  (n =? 133)%nat || (n =? 160)%nat.

Fixpoint lstrip (s : string) : string :=
  match s with
  | String c s' => if is_space c then lstrip s' else s
  | EmptyString => EmptyString
  end.

Fixpoint all_space (s : string) : bool :=
  match s with
  | EmptyString => true
  | String c s' => is_space c && all_space s'
  end.

(** Digits of an integer literal after the sign, read left to right with
    the value accumulated so far; one underscore is allowed between two
    digits; trailing white space is skipped. *)
Fixpoint int_digits (acc : Z) (s : string) : option Z :=
  match s with
  | EmptyString => Some acc
  | String c s' =>
      if is_digit c then int_digits (10 * acc + digit_value c) s'
      else if Ascii.eqb c "_" then
        match s' with
        | String d _ => if is_digit d then int_digits acc s' else None
        | EmptyString => None
        end
      else if all_space s then Some acc
      else None
  end.

Definition int_unsigned (s : string) : option Z :=
  match s with
  | String c _ => if is_digit c then int_digits 0 s else None
  | EmptyString => None
  end.

(** The decimal digits of an integer, with a minus sign when negative. *)
Definition decimal (n : Z) : string := NilZero.string_of_int (Z.to_int n).

Definition hex_digit (n : nat) : ascii :=
  if (n <? 10)%nat then ascii_of_nat (48 + n) else ascii_of_nat (87 + n).

(** The characters [repr] writes as they are. *)
Definition is_printable (c : ascii) : bool :=
  let n := nat_of_ascii c in
  (32 <=? n)%nat && negb ((127 <=? n)%nat && (n <=? 160)%nat) && negb (n =? 173)%nat.

Fixpoint has_char (c : ascii) (s : string) : bool :=
  match s with
  | EmptyString => false
  | String d s' => Ascii.eqb c d || has_char c s'
  end.

Fixpoint repr_chars (quote : ascii) (s : string) : string :=
  match s with
  | EmptyString => EmptyString
  | String c s' =>
      let rest := repr_chars quote s' in
      if Ascii.eqb c quote || Ascii.eqb c "\" then String "\" (String c rest)
      else if Ascii.eqb c "009" then String "\" (String "t" rest)
      else if Ascii.eqb c "010" then String "\" (String "n" rest)
      else if Ascii.eqb c "013" then String "\" (String "r" rest)
      else if is_printable c then String c rest
      else String "\" (String "x"
             (String (hex_digit (nat_of_ascii c / 16))
                (String (hex_digit (nat_of_ascii c mod 16)) rest)))
  end.

(** [repr(s)]: in single quotes, unless the string holds a single quote
    and no double quote. *)
Definition repr (s : string) : string :=
  let quote : ascii :=
    if has_char "'" s && negb (has_char "034" s) then "034"%char else "'"%char in
  String quote (repr_chars quote s ++ String quote EmptyString).

(** The limit of [sys.set_int_max_str_digits], at its default. *)
Definition max_str_digits : Z := 4300.

(** The scan of the digits of a literal: their number, or [None] when an
    underscore follows another or ends the digits. *)
Fixpoint count_digits (prev_underscore : bool) (digits : Z) (s : string) : option Z :=
  match s with
  | EmptyString => if prev_underscore then None else Some digits
  | String c s' =>
      if is_digit c then count_digits false (digits + 1) s'
      else if Ascii.eqb c "_" then
        if prev_underscore then None else count_digits true digits s'
      else if prev_underscore then None else Some digits
  end.

(** The literal after the white space and the sign.  The message of an
    invalid literal shows the first 200 characters of [repr] of the whole
    argument. *)
Definition int_literal (whole s : string) : result Z :=
  let bad :=
    Raise (ValueError ("invalid literal for int() with base 10: "
                       ++ substring 0 200 (repr whole))) in
  match count_digits false 0 s with
  | None => bad
  | Some digits =>
      if (max_str_digits <? digits)%Z then
        Raise (ValueError
          ("Exceeds the limit (4300 digits) for integer string conversion: value has "
           ++ decimal digits
           ++ " digits; use sys.set_int_max_str_digits() to increase the limit"))
      else match int_unsigned s with
           | Some n => Ok n
           | None => bad
           end
  end.

(** [int(s)] in base 10. *)
Definition int (s : string) : result Z :=
  match lstrip s with
  | String "-" s' => n <- int_literal s s' ;; Ok (- n)%Z
  | String "+" s' => int_literal s s'
  | s' => int_literal s s'
  end.

(** [str(n)] for an integer: a [ValueError] beyond 4300 digits. *)
Definition str (n : Z) : result string :=
  if (max_str_digits <? Z.of_nat (String.length (decimal (Z.abs n))))%Z then
    Raise (ValueError
      "Exceeds the limit (4300 digits) for integer string conversion; use sys.set_int_max_str_digits() to increase the limit")
  else Ok (decimal n).

Fixpoint zeros (n : nat) : string :=
  match n with
  | O => EmptyString
  | S n' => String "0" (zeros n')
  end.

(** [s.zfill(width)]: zeros are inserted after a leading sign. *)
Definition zfill (s : string) (width : nat) : string :=
  let pad := zeros (width - String.length s) in
  match s with
  | String "-" s' => String "-" (pad ++ s')
  | String "+" s' => String "+" (pad ++ s')
  | _ => pad ++ s
  end.

(** [max(a, b)] on numbers: the first argument unless the second is
    strictly greater. *)
Definition max (a b : Q) : Q :=
  match Qcompare b a with
  | Gt => b
  | _ => a
  end.

End Py.

(** ** Regular expressions: the fragment of Python's [re] used by [app.py]

    [re.match] succeeds when some prefix of the subject, starting at its
    first character, belongs to the language of the pattern; the search
    backtracks, so the matcher below decides exactly that by derivatives. *)

Module Re.

Inductive regex : Type :=
| Void
| Eps
| Sym (p : ascii -> bool)
| Cat (r s : regex)
| Alt (r s : regex)
| Star (r : regex).

Fixpoint nullable (r : regex) : bool :=
  match r with
  | Void => false
  | Eps => true
  | Sym _ => false
  | Cat r s => nullable r && nullable s
  | Alt r s => nullable r || nullable s
  | Star _ => true
  end.

Fixpoint deriv (c : ascii) (r : regex) : regex :=
  match r with
  | Void => Void
  | Eps => Void
  | Sym p => if p c then Eps else Void
  | Cat r s =>
      if nullable r then Alt (Cat (deriv c r) s) (deriv c s)
      else Cat (deriv c r) s
  | Alt r s => Alt (deriv c r) (deriv c s)
  | Star r => Cat (deriv c r) (Star r)
  end.

(** [re.match(r, s) is not None]. *)
Fixpoint match_ (r : regex) (s : string) : bool :=
  nullable r ||
  match s with
  | EmptyString => false
  | String c s' => match_ (deriv c r) s'
  end.

(** Pattern syntax. *)
Definition chr (c : ascii) : regex := Sym (Ascii.eqb c).
Definition plus (r : regex) : regex := Cat r (Star r).
Fixpoint lit (s : string) : regex :=
  match s with
  | EmptyString => Eps
  | String c s' => Cat (chr c) (lit s')
  end.
Fixpoint times (n : nat) (r : regex) : regex :=
  match n with
  | O => Eps
  | S n' => Cat r (times n' r)
  end.

(** [\w] of a [str] pattern: the underscore and the characters of
    [str.isalnum], which below 256 are the ASCII letters and digits, the
    letters of Latin-1 (every character from 192 on but the two operators
    215 and 247, and 170, 181, 186) and its numeric characters (178, 179,
    185, 188 to 190). *)
Definition is_word (c : ascii) : bool :=
  let n := nat_of_ascii c in
  ((48 <=? n)%nat && (n <=? 57)%nat) ||
  ((65 <=? n)%nat && (n <=? 90)%nat) ||
  ((97 <=? n)%nat && (n <=? 122)%nat) ||
  (n =? 95)%nat ||
  (n =? 170)%nat || (n =? 178)%nat || (n =? 179)%nat || (n =? 181)%nat ||
  (n =? 185)%nat || (n =? 186)%nat || ((188 <=? n)%nat && (n <=? 190)%nat) ||
  ((192 <=? n)%nat && negb (n =? 215)%nat && negb (n =? 247)%nat).

(** [\d] of a [str] pattern: the decimal digits, which below 256 are
    [0] to [9]. *)
Definition is_decimal (c : ascii) : bool := Py.is_digit c.

(** [.] (without DOTALL): any character but the line feed. *)
Definition is_dot (c : ascii) : bool := negb (nat_of_ascii c =? 10)%nat.

(** The language of a pattern. *)
Inductive lang : regex -> string -> Prop :=
| lang_eps : lang Eps ""
| lang_sym p c : p c = true -> lang (Sym p) (String c "")
| lang_cat r s u v : lang r u -> lang s v -> lang (Cat r s) (u ++ v)
| lang_alt_l r s u : lang r u -> lang (Alt r s) u
| lang_alt_r r s u : lang s u -> lang (Alt r s) u
| lang_star_nil r : lang (Star r) ""
| lang_star_cons r u v : lang r u -> lang (Star r) v -> lang (Star r) (u ++ v).

End Re.

(** ** The parts of Qt used by [app.py]

    Each definition follows the documented behaviour of the Qt 6 class of
    the same name. *)

Module Qt.

Local Open Scope Q_scope.

Record QPoint : Type := mkQPoint { pt_x : Z; pt_y : Z }.

Record QPointF : Type := mkQPointF { ptf_x : Q; ptf_y : Q }.

Record QSize : Type := mkQSize { sz_width : Z; sz_height : Z }.

(** [QRect] stores its two corners; the right and bottom edges are
    [x + width - 1] and [y + height - 1]. *)
Record QRect : Type := mkQRect { x1 : Z; y1 : Z; x2 : Z; y2 : Z }.

Definition QRect_xywh (x y w h : Z) : QRect :=
  mkQRect x y (x + w - 1)%Z (y + h - 1)%Z.

Definition QRect_x (r : QRect) : Z := x1 r.
Definition QRect_y (r : QRect) : Z := y1 r.
Definition QRect_width (r : QRect) : Z := (x2 r - x1 r + 1)%Z.
Definition QRect_height (r : QRect) : Z := (y2 r - y1 r + 1)%Z.

Definition QRect_isNull (r : QRect) : bool :=
  (x2 r =? x1 r - 1)%Z && (y2 r =? y1 r - 1)%Z.

(** [QRect::center]: integer division, truncating towards zero. *)
Definition QRect_center (r : QRect) : QPoint :=
  mkQPoint (Z.quot (x1 r + x2 r) 2) (Z.quot (y1 r + y2 r) 2)%Z.

Record QRectF : Type := mkQRectF { xp : Q; yp : Q; w : Q; h : Q }.

Definition QRectF_right (r : QRectF) : Q := xp r + w r.
Definition QRectF_bottom (r : QRectF) : Q := yp r + h r.

Definition QRectF_setWidth (r : QRectF) (nw : Q) : QRectF :=
  mkQRectF (xp r) (yp r) nw (h r).

Definition QRectF_setHeight (r : QRectF) (nh : Q) : QRectF :=
  mkQRectF (xp r) (yp r) (w r) nh.

Definition QRectF_translate (r : QRectF) (p : QPointF) : QRectF :=
  mkQRectF (xp r + ptf_x p) (yp r + ptf_y p) (w r) (h r).

Definition QRectF_adjusted (r : QRectF) (dx1 dy1 dx2 dy2 : Q) : QRectF :=
  mkQRectF (xp r + dx1) (yp r + dy1) (w r + dx2 - dx1) (h r + dy2 - dy1).

(** Conversion of a [double] to [int]: the fraction is dropped. *)
Definition to_int (d : Q) : Z := Z.quot (Qnum d) (Zpos (Qden d)).

(** [qRound]: to the nearest integer, halves away from zero.  Qt clamps
    the result to the range of [int]; the model does not, and is Qt's
    function on the numbers that round into that range. *)
Definition qRound (d : Q) : Z :=
  if Qle_bool 0 d then to_int (d + (1 # 2)) else to_int (d - (1 # 2)).

(** [QRectF::toRect] (Qt 6). *)
Definition QRectF_toRect (r : QRectF) : QRect :=
  let nxp := qRound (xp r) in
  let nyp := qRound (yp r) in
  let nw := qRound (w r + (xp r - inject_Z nxp) / 2) in
  let nh := qRound (h r + (yp r - inject_Z nyp) / 2) in
  QRect_xywh nxp nyp nw nh.

(** [QSize::scaled] with [Qt::KeepAspectRatio]: the largest size of the
    same aspect ratio that fits inside [s]. *)
Definition QSize_scaled_keep (sz s : QSize) : QSize :=
  if (sz_width sz =? 0)%Z || (sz_height sz =? 0)%Z then s
  else
    let rw := Z.quot (sz_height s * sz_width sz)%Z (sz_height sz) in
    if (rw <=? sz_width s)%Z then mkQSize rw (sz_height s)
    else mkQSize (sz_width s)
                 (Z.quot (sz_width s * sz_height sz)%Z (sz_width sz)).

(** An image: its size and the value of the pixel at each position inside
    it.  The null image has size 0 x 0. *)
Record QImage : Type := mkQImage {
  img_width : Z;
  img_height : Z;
  img_pixel : Z -> Z -> Z
}.

Definition QImage_null : QImage := mkQImage 0 0 (fun _ _ => 0%Z).

Definition QImage_isNull (img : QImage) : bool :=
  (img_width img <=? 0)%Z || (img_height img <=? 0)%Z.

Definition QImage_size (img : QImage) : QSize :=
  mkQSize (img_width img) (img_height img).

(** [QImage::rect], also the rectangle of the pixmap made from the image. *)
Definition QImage_rect (img : QImage) : QRect :=
  QRect_xywh 0 0 (img_width img) (img_height img).

Definition inside (img : QImage) (x y : Z) : bool :=
  (0 <=? x)%Z && (x <? img_width img)%Z &&
  (0 <=? y)%Z && (y <? img_height img)%Z.

(** [QImage::copy(rect)]: a null rectangle copies the whole image; the
    result has otherwise the size of the rectangle, and its pixels that
    lie beyond the image are set to 0.  Qt first allocates the result and
    returns the null image when it cannot: [can_allocate w h] tells whether
    an image of [w] by [h] pixels can be allocated. *)
Definition QImage_copy_in (can_allocate : Z -> Z -> bool) (img : QImage) (r : QRect)
  : QImage :=
  if QImage_isNull img then QImage_null
  else if QRect_isNull r then
    if can_allocate (img_width img) (img_height img) then img else QImage_null
  else if (QRect_width r <=? 0)%Z || (QRect_height r <=? 0)%Z then QImage_null
  else if can_allocate (QRect_width r) (QRect_height r) then
    mkQImage (QRect_width r) (QRect_height r)
      (fun i j =>
         if inside img (QRect_x r + i)%Z (QRect_y r + j)%Z
         then img_pixel img (QRect_x r + i)%Z (QRect_y r + j)%Z
         else 0%Z)
  else QImage_null.

(** [QImage::copy(rect)] when every allocation succeeds. *)
Definition QImage_copy (img : QImage) (r : QRect) : QImage :=
  if QImage_isNull img then QImage_null
  else if QRect_isNull r then img
  else if (QRect_width r <=? 0)%Z || (QRect_height r <=? 0)%Z then QImage_null
  else mkQImage (QRect_width r) (QRect_height r)
         (fun i j =>
            if inside img (QRect_x r + i)%Z (QRect_y r + j)%Z
            then img_pixel img (QRect_x r + i)%Z (QRect_y r + j)%Z
            else 0%Z).

Section Scaling.

(** The pixels of an image transformed to a new size (not modelled). *)
Variable resample : QImage -> QSize -> Z -> Z -> Z.

(** [QImage::scaled(w, h, Qt::KeepAspectRatio)]. *)
Definition QImage_scaled_keep (img : QImage) (tw th : Z) : QImage :=
  if QImage_isNull img then QImage_null
  else if (tw <? 1)%Z || (th <? 1)%Z then QImage_null
  else
    let s := QSize_scaled_keep (QImage_size img) (mkQSize tw th) in
    let nw := Z.max (sz_width s) 1 in
    let nh := Z.max (sz_height s) 1 in
    if (nw =? img_width img)%Z && (nh =? img_height img)%Z then img
    else mkQImage nw nh (resample img (mkQSize nw nh)).

End Scaling.

(** [QGraphicsRectItem::boundingRect]: the rectangle extended by half the
    pen width on every side. *)
Definition boundingRect_of (rect : QRectF) (pen_width : Q) : QRectF :=
  let halfpw := pen_width / 2 in
  if Qle_bool halfpw 0 then rect
  else QRectF_adjusted rect (- halfpw) (- halfpw) halfpw halfpw.

End Qt.

(** ** The classes of [app.py] *)

Import Qt.

Local Open Scope Q_scope.

(** [ResizeHandle]: its own rectangle, its position in the parent and
    whether Qt currently has it selected. *)
Record ResizeHandle : Type := mkResizeHandle {
  handle_rect : QRectF;
  handle_pos : QPointF;
  handle_selected : bool
}.

(** [DraggableRectItem]: the crop box.  [rect] is in the item's own
    coordinates, [pos] places the item in the scene. *)
Record DraggableRectItem : Type := mkDraggableRectItem {
  rect : QRectF;
  pos : QPointF;
  pen_width : Q;
  resize_handle : ResizeHandle
}.

(** [ResizeHandle.__init__] (lines 23-30). *)
Definition ResizeHandle_init (parent_rect : QRectF) : ResizeHandle :=
  mkResizeHandle (mkQRectF (-40) (-40) 40 40)
                 (mkQPointF (QRectF_right parent_rect) (QRectF_bottom parent_rect))
                 false.

(** [DraggableRectItem.__init__] (lines 107-121): the item starts at the
    scene origin with Qt's default pen of width 1. *)
Definition DraggableRectItem_init (r : QRectF) : DraggableRectItem :=
  mkDraggableRectItem r (mkQPointF 0 0) 1 (ResizeHandle_init r).

Definition setPos (p : QPointF) (b : DraggableRectItem) : DraggableRectItem :=
  mkDraggableRectItem (rect b) p (pen_width b) (resize_handle b).

Definition setPen (width : Q) (b : DraggableRectItem) : DraggableRectItem :=
  mkDraggableRectItem (rect b) (pos b) width (resize_handle b).

Definition boundingRect (b : DraggableRectItem) : QRectF :=
  boundingRect_of (rect b) (pen_width b).

(** [ResizeHandle.mouseMoveEvent], lines 48-66, as a function of the
    parent box that owns the handle.  What the inherited handler of line 45
    does before them (Qt selects the pressed handle and drags the selected
    movable items) is not part of this function: in a session it is the
    events [HandleSelected] and [BoxDragged], and [handle_selected] and
    [pos] are read here as that handler left them. *)
Definition ResizeHandle_mouseMoveEvent
    (scenePos : QPointF) (parent : DraggableRectItem) : DraggableRectItem :=
  let self := resize_handle parent in
  if handle_selected self then
    let parent_rect := rect parent in
    let handle_rect := handle_rect self in
    let dx := ptf_x scenePos - xp parent_rect - w parent_rect + w handle_rect / 2 in
    let dy := ptf_y scenePos - yp parent_rect - h parent_rect + h handle_rect / 2 in
    let new_size := Py.max dx dy in
    let new_width := new_size + w parent_rect in
    let new_height := new_size + h parent_rect in
    let parent_rect := QRectF_setWidth parent_rect new_width in
    let parent_rect := QRectF_setHeight parent_rect new_height in
    mkDraggableRectItem parent_rect (pos parent) (pen_width parent)
      (mkResizeHandle handle_rect
         (mkQPointF (QRectF_right parent_rect) (QRectF_bottom parent_rect))
         (handle_selected self))
  else parent.

(** Qt selecting or deselecting the handle (it is [ItemIsSelectable]). *)
Definition setSelected (sel : bool) (b : DraggableRectItem) : DraggableRectItem :=
  let hd := resize_handle b in
  mkDraggableRectItem (rect b) (pos b) (pen_width b)
    (mkResizeHandle (handle_rect hd) (handle_pos hd) sel).

(** Qt dragging the box (it is [ItemIsMovable]): the position moves by the
    pointer delta, the rectangle is untouched. *)
Definition moveBy (dx dy : Q) (b : DraggableRectItem) : DraggableRectItem :=
  setPos (mkQPointF (ptf_x (pos b) + dx) (ptf_y (pos b) + dy)) b.

(** The fields of [ImageProcessor] that the methods below read or write. *)
Record ImageProcessor : Type := mkImageProcessor {
  image_width : Z;
  image_height : Z;
  image : option QImage;
  image_original : option QImage;
  box : option DraggableRectItem;
  suggested_filename : string;
  message_label : string
}.

(** A file written by [QImage.save]. *)
Record SavedFile : Type := mkSavedFile {
  saved_path : string;
  saved_format : string;
  saved_image : QImage
}.

(** [ImageProcessor.__init__] (lines 177-200). *)
Definition ImageProcessor_init : ImageProcessor :=
  mkImageProcessor 1024 1024 None None None "image_000.jpg" "".

Definition set_box (b : option DraggableRectItem) (self : ImageProcessor)
  : ImageProcessor :=
  mkImageProcessor (image_width self) (image_height self) (image self)
    (image_original self) b (suggested_filename self) (message_label self).

(** The pattern [r"\w+_\d{3}.jpg"] of line 379. *)
Definition filename_pattern : Re.regex :=
  Re.Cat (Re.plus (Re.Sym Re.is_word))
    (Re.Cat (Re.chr "_")
       (Re.Cat (Re.times 3 (Re.Sym Re.is_decimal))
          (Re.Cat (Re.Sym Re.is_dot) (Re.lit "jpg")))).

(** The right-hand side of line 380. *)
Definition incremented_filename (name : string) : result string :=
  stem <- Py.index (Py.split "_" name) 0 ;;
  rest <- Py.index (Py.split "_" name) 1 ;;
  digits <- Py.index (Py.split "." rest) 0 ;;
  n <- Py.int digits ;;
  counter <- Py.str (n + 1)%Z ;;
  Ok (stem ++ "_" ++ Py.zfill counter 3 ++ ".jpg")%string.

(** Lines 379-380: the name offered in the save dialog. *)
Definition offered_filename (name : string) : result string :=
  if Re.match_ filename_pattern name then incremented_filename name
  else Ok name.

(** Lines 372-377: the image cut out under the box. *)
Definition cropped_image (img : QImage) (b : DraggableRectItem) : QImage :=
  let box_rect := boundingRect b in
  let box_pos := pos b in
  let box_rect := QRectF_translate box_rect box_pos in
  QImage_copy img (QRectF_toRect box_rect).

(** [ImageProcessor.draw_image] (lines 389-433). *)
Definition draw_image (draw_box : bool) (self : ImageProcessor) : ImageProcessor :=
  match image self with
  | None => self
  | Some img =>
      if draw_box then
        let image_rect := QImage_rect img in
        let box_width := image_width self in
        let box_height := image_height self in
        let box_rect := mkQRectF 0 0 (inject_Z box_width) (inject_Z box_height) in
        let b := DraggableRectItem_init box_rect in
        let b := setPos
                   (mkQPointF
                      (inject_Z (pt_x (QRect_center image_rect) - box_width / 2)%Z)
                      (inject_Z (pt_y (QRect_center image_rect) - box_height / 2)%Z))
                   b in
        let b := setPen 20 b in
        set_box (Some b) self
      else set_box None self
  end.

(** [ImageProcessor.set_image_size] (lines 324-348). *)
Definition set_image_size (size : string) (self : ImageProcessor)
  : result ImageProcessor :=
  let resized wd ht :=
    mkImageProcessor wd ht (image self) (image_original self) (box self)
      (suggested_filename self) (message_label self) in
  self <-
    (if String.eqb size "512 x 512" then Ok (resized 512 512)%Z
     else if String.eqb size "1024 x 1024" then Ok (resized 1024 1024)%Z
     else if String.eqb size "2048 x 2048" then Ok (resized 2048 2048)%Z
     else Raise (ValueError ("Invalid size: " ++ size))) ;;
  Ok (draw_image true self).

Section Environment.

(** [QImage(file_path)]: the image decoded from a file. *)
Variable QImage_of_file : string -> QImage.

(** The pixels of a rescaled image. *)
Variable resample : QImage -> QSize -> Z -> Z -> Z.

(** [ImageProcessor.load_image] (lines 350-361).  A missing, [False] or
    empty [file_path] is the empty string; [open_dialog] is what
    [QFileDialog.getOpenFileName] answers if it is shown (empty when the
    dialog is cancelled). *)
Definition load_image (file_path : string) (open_dialog : string)
    (self : ImageProcessor) : ImageProcessor :=
  let file_path := if String.eqb file_path "" then open_dialog else file_path in
  if negb (String.eqb file_path "") then
    let img := QImage_of_file file_path in
    draw_image true
      (mkImageProcessor (image_width self) (image_height self) (Some img)
         (Some img) (box self) (suggested_filename self) (message_label self))
  else self.

(** [ImageProcessor.dropEvent] (lines 217-229): [urls] are the local file
    paths of the dropped URLs, [open_dialog i] is the answer of the Open
    dialog should the [i]-th URL have no local path. *)
Fixpoint dropEvent_from (i : nat) (urls : list string)
    (open_dialog : nat -> string) (self : ImageProcessor) : ImageProcessor :=
  match urls with
  | [] => self
  | file_path :: urls' =>
      dropEvent_from (S i) urls' open_dialog
        (load_image file_path (open_dialog i) self)
  end.

Definition dropEvent := dropEvent_from 0.

(** [ImageProcessor.save_image] (lines 363-387).  [self.image] and
    [self.box] are either [None] or objects, and objects are true.
    [save_dialog name] is
    the path [QFileDialog.getSaveFileName] answers when [name] is offered
    (empty when the dialog is cancelled); [write_ok] tells whether the
    file system accepts the JPEG file, and [QImage.save] writes nothing for
    a null image.  The value [QImage.save] returns is not looked at.  The
    result is the new state and the file written, if any. *)
Definition save_image (save_dialog : string -> string) (write_ok : bool)
    (self : ImageProcessor) : result (ImageProcessor * option SavedFile) :=
  match image self, box self with
  | Some img, Some b =>
      let cropped := cropped_image img b in
      name <- offered_filename (suggested_filename self) ;;
      let self :=
        mkImageProcessor (image_width self) (image_height self) (image self)
          (image_original self) (box self) name (message_label self) in
      let file_path := save_dialog (suggested_filename self) in
      if negb (String.eqb file_path "") then
        let cropped :=
          QImage_scaled_keep resample cropped (image_width self) (image_height self) in
        let written :=
          if write_ok && negb (QImage_isNull cropped)
          then Some (mkSavedFile file_path "JPEG" cropped) else None in
        name <- Py.last (Py.split "/" file_path) ;;
        Ok (mkImageProcessor (image_width self) (image_height self) (image self)
              (image_original self) (box self) name "Saved!",
            written)
      else Ok (self, None)
  | _, _ => Ok (self, None)
  end.

(** What the user and Qt can do to the window. *)
Inductive event : Type :=
| SizeSelected (size : string)
| LoadClicked (open_dialog : string)
| Dropped (urls : list string) (open_dialog : nat -> string)
| SaveClicked (save_dialog : string -> string) (write_ok : bool)
| BoxDragged (dx dy : Q)
| HandleSelected (sel : bool)
| HandleDragged (scenePos : QPointF).

Definition on_box (f : DraggableRectItem -> DraggableRectItem)
    (self : ImageProcessor) : ImageProcessor :=
  match box self with
  | Some b => set_box (Some (f b)) self
  | None => self
  end.

Definition step (self : ImageProcessor) (e : event) : result ImageProcessor :=
  match e with
  | SizeSelected size => set_image_size size self
  | LoadClicked open_dialog => Ok (load_image "" open_dialog self)
  | Dropped urls open_dialog => Ok (dropEvent urls open_dialog self)
  | SaveClicked save_dialog write_ok =>
      r <- save_image save_dialog write_ok self ;; Ok (fst r)
  | BoxDragged dx dy => Ok (on_box (moveBy dx dy) self)
  | HandleSelected sel => Ok (on_box (setSelected sel) self)
  | HandleDragged scenePos => Ok (on_box (ResizeHandle_mouseMoveEvent scenePos) self)
  end.

(** A session: the events in order, up to the first exception. *)
Fixpoint run (self : ImageProcessor) (es : list event) : result ImageProcessor :=
  match es with
  | [] => Ok self
  | e :: es' => self' <- step self e ;; run self' es'
  end.

End Environment.

(** * Vocabulary of the statements *)

(** ** The crop box *)

Definition square (b : DraggableRectItem) : Prop := w (rect b) == h (rect b).

(** The handle every box is built with. *)
Definition standard_handle (b : DraggableRectItem) : Prop :=
  handle_rect (resize_handle b) = mkQRectF (-40) (-40) 40 40.

(** The new side length as the specification words it, for a box whose far
    corner is at [(x + side, y + side)]. *)
Definition resizeFromCorner_spec_side (x y side pointerX pointerY : Q) : Q :=
  side + Py.max (pointerX - x - side) (pointerY - y - side).

(** What holds of the window throughout a session. *)
Definition session_inv (self : ImageProcessor) : Prop :=
  image_width self = image_height self /\
  forall b, box self = Some b -> square b /\ standard_handle b.

(** The entries of the size selector and the side each one stands for. *)
Definition size_targets : list (string * Z) :=
  [("512 x 512"%string, 512%Z); ("1024 x 1024"%string, 1024%Z);
   ("2048 x 2048"%string, 2048%Z)].

(** The region asked of [QImage.copy] on line 377. *)
Definition crop_rect (b : DraggableRectItem) : QRect :=
  QRectF_toRect (QRectF_translate (boundingRect b) (pos b)).

(** Lines 372-377 with Qt's allocation as an input. *)
Definition cropped_image_in (can_allocate : Z -> Z -> bool)
    (img : QImage) (b : DraggableRectItem) : QImage :=
  let box_rect := boundingRect b in
  let box_pos := pos b in
  let box_rect := QRectF_translate box_rect box_pos in
  QImage_copy_in can_allocate img (QRectF_toRect box_rect).

(** The values of Qt's 32-bit [int]. *)
Definition int_range (z : Z) : Prop := (- 2 ^ 31 <= z < 2 ^ 31)%Z.

(** A rectangle whose corners and size are values of [int]: on such a
    region the unbounded integers of the model are Qt's. *)
Definition QRect_in_range (r : QRect) : Prop :=
  int_range (x1 r) /\ int_range (y1 r) /\ int_range (x2 r) /\ int_range (y2 r) /\
  int_range (QRect_width r) /\ int_range (QRect_height r).

(** The corner of the box in the scene: the origin of its rectangle placed
    at the item's position. *)
Definition scene_x (b : DraggableRectItem) : Q := ptf_x (pos b) + xp (rect b).
Definition scene_y (b : DraggableRectItem) : Q := ptf_y (pos b) + yp (rect b).

(** The box [draw_image] creates for the 512 target on a 1024 x 1024
    image. *)
Definition box_512_on_1024 : DraggableRectItem :=
  setPen 20 (setPos (mkQPointF 255 255) (DraggableRectItem_init (mkQRectF 0 0 512 512))).

(** ** File names *)

Local Open Scope string_scope.

Fixpoint all_chars (p : ascii -> bool) (s : string) : bool :=
  match s with
  | EmptyString => true
  | String c s' => p c && all_chars p s'
  end.

(** A stem: word characters, none of them an underscore, at least one. *)
Definition is_stem_char (c : ascii) : bool :=
  Re.is_word c && negb (Ascii.eqb c "_").

Definition is_stem (s : string) : bool :=
  negb (String.eqb s "") && all_chars is_stem_char s.

(** The name [stem_NNN.jpg] with the counter digits [d1 d2 d3]. *)
Definition numbered_name (stem : string) (d1 d2 d3 : ascii) : string :=
  stem ++ "_" ++ String d1 (String d2 (String d3 ".jpg")).

(** The number that the three digits write. *)
Definition counter_value (d1 d2 d3 : ascii) : Z :=
  100 * Py.digit_value d1 + 10 * Py.digit_value d2 + Py.digit_value d3.

(** The name with the counter [n], as line 380 writes it. *)
Definition counter_name (stem : string) (n : Z) : string :=
  stem ++ "_" ++ Py.zfill (Py.decimal n) 3 ++ ".jpg".

Definition decimal_digits : list ascii :=
  ["0"; "1"; "2"; "3"; "4"; "5"; "6"; "7"; "8"; "9"]%char.

(** What line 380 reads after the first underscore of a numbered name. *)
Definition counter_of_tail (tail : string) : result Z :=
  rest <- Py.index (Py.split "_" tail) 0 ;;
  digits <- Py.index (Py.split "." rest) 0 ;;
  Py.int digits.

(** The facts about one counter [d1 d2 d3] that are checked by running the
    code on each of the thousand counters: line 380 reads its value, the
    value written back on three digits is the counter itself, [str] writes
    the successor, and the successor takes three digits unless the counter
    is 999. *)
Definition tail_ok (d1 d2 d3 : ascii) : bool :=
  let n := counter_value d1 d2 d3 in
  match counter_of_tail (String d1 (String d2 (String d3 ".jpg"))) with
  | Ok m =>
      (m =? n)%Z &&
      String.eqb (Py.zfill (Py.decimal n) 3) (String d1 (String d2 (String d3 ""))) &&
      match Py.str (n + 1) with
      | Ok text => String.eqb text (Py.decimal (n + 1))
      | Raise _ => false
      end &&
      ((999 <=? n)%Z || (String.length (Py.zfill (Py.decimal (n + 1)) 3) =? 3)%nat)
  | Raise _ => false
  end.

(** The user keeps the name offered in the save dialog: a path is chosen
    and its last component is the offered name. *)
Definition keeps_offered_name (save_dialog : string -> string) (offered : string)
  : Prop :=
  save_dialog offered <> "" /\
  Py.last (Py.split "/" (save_dialog offered)) = Ok offered.

(** The image line 383 makes of the crop: scaled to the target size. *)
Definition export_image (resample : QImage -> QSize -> Z -> Z -> Z)
    (self : ImageProcessor) (img : QImage) (b : DraggableRectItem) : QImage :=
  QImage_scaled_keep resample (cropped_image img b)
    (image_width self) (image_height self).

(** What line 384 writes at [path]. *)
Definition written_file (resample : QImage -> QSize -> Z -> Z -> Z)
    (write_ok : bool) (path : string)
    (self : ImageProcessor) (img : QImage) (b : DraggableRectItem)
  : option SavedFile :=
  if write_ok && negb (QImage_isNull (export_image resample self img b))
  then Some (mkSavedFile path "JPEG" (export_image resample self img b))
  else None.

(** The window with another suggested name and status message. *)
Definition with_suggested (name message : string) (self : ImageProcessor)
  : ImageProcessor :=
  mkImageProcessor (image_width self) (image_height self) (image self)
    (image_original self) (box self) name message.

(** ** A concrete environment *)

(** An image whose pixel at [(x, y)] holds [x + width * y]. *)
Definition example_image (wd ht : Z) : QImage :=
  mkQImage wd ht (fun x y => (x + wd * y)%Z).

(** A small file system. *)
Definition example_files (path : string) : QImage :=
  if String.eqb path "/pics/small.png" then example_image 100 100
  else if String.eqb path "/pics/odd.png" then example_image 1025 1025
  else example_image 1024 1024.

(** Nearest-pixel resampling. *)
Definition example_resample (img : QImage) (s : QSize) (x y : Z) : Z :=
  img_pixel img (Z.quot (x * img_width img) (sz_width s))
                (Z.quot (y * img_height img) (sz_height s)).

(** A user who saves in [dir] under the offered name. *)
Definition in_folder (dir : string) (name : string) : string :=
  dir ++ "/" ++ name.

(** A user who always answers [path] (the empty path cancels). *)
Definition always (path : string) (name : string) : string := path.

Definition example_run (es : list event) : result ImageProcessor :=
  run example_files example_resample ImageProcessor_init es.

Definition example_state (es : list event) : ImageProcessor :=
  match example_run es with
  | Ok self => self
  | Raise _ => ImageProcessor_init
  end.

(** The state after loading the 1024 x 1024 picture and saving it as
    [name] in "/out". *)
Definition saved_as (name : string) : ImageProcessor :=
  example_state [LoadClicked "/pics/a.png";
                 SaveClicked (always ("/out/" ++ name)) true].

(** A square box of side 100 whose handle is selected. *)
Definition example_box : DraggableRectItem :=
  setSelected true (DraggableRectItem_init (mkQRectF 0 0 100 100)).

Local Open Scope Q_scope.

(** * The remaining handlers of [app.py] *)

(** [ImageProcessor.eventFilter] (lines 302-322).  [on_viewport] tells
    whether the object is the canvas viewport, [is_press] whether the event
    is a mouse button press.  The second component is [Some true] when the
    event is handled here and [None] when it is passed to the inherited
    filter. *)
Definition eventFilter (QImage_of_file : string -> QImage)
    (on_viewport is_press : bool) (open_dialog : string)
    (self : ImageProcessor) : ImageProcessor * option bool :=
  match image self with
  | None =>
      if on_viewport && is_press
      then (load_image QImage_of_file "" open_dialog self, Some true)
      else (self, None)
  | Some _ => (self, None)
  end.

(** ** Vocabulary of the further properties *)

(** The shape every box of a session has: rectangle at the item's origin,
    pen of width 20, the 40-unit handle, equal sides. *)
Definition session_box (b : DraggableRectItem) : Prop :=
  xp (rect b) = 0 /\ yp (rect b) = 0 /\ pen_width b = 20 /\
  standard_handle b /\ square b.

(** No character of the string is a slash. *)
Definition no_slash (s : string) : bool :=
  all_chars (fun c => negb (Ascii.eqb c "/")) s.

(** What holds of the window throughout a session, beyond [session_inv]. *)
Definition session_shape (self : ImageProcessor) : Prop :=
  (image self = None <-> box self = None) /\
  image_original self = image self /\
  In (image_width self) [512; 1024; 2048]%Z /\
  image_height self = image_width self /\
  no_slash (suggested_filename self) = true /\
  forall b, box self = Some b -> session_box b.

(** The subjects on which line 379 succeeds: word characters, an
    underscore, three digits, any character but a line feed, "jpg", and
    then anything. *)
Definition numbered_prefix (s : string) : Prop :=
  exists (ws : string) (d1 d2 d3 c : ascii) (rest : string),
    s = (ws ++ String "_" (String d1 (String d2 (String d3
           (String c ("jpg" ++ rest))))))%string /\
    ws <> ""%string /\ all_chars Re.is_word ws = true /\
    Py.is_digit d1 = true /\ Py.is_digit d2 = true /\ Py.is_digit d3 = true /\
    Re.is_dot c = true.

(** The box [draw_image] creates for an image and a target side. *)
Definition fresh_box (img : QImage) (side : Z) : DraggableRectItem :=
  setPen 20
    (setPos
       (mkQPointF
          (inject_Z (pt_x (QRect_center (QImage_rect img)) - side / 2)%Z)
          (inject_Z (pt_y (QRect_center (QImage_rect img)) - side / 2)%Z))
       (DraggableRectItem_init (mkQRectF 0 0 (inject_Z side) (inject_Z side)))).

(** * Properties *)

(** ** Numbers *)

Lemma Py_max_cases (a b : Q) :
  (b <= a /\ Py.max a b = a) \/ (a < b /\ Py.max a b = b).
Proof.
  unfold Py.max.
  destruct (Qcompare b a) eqn:E.
  - left; split; [apply Qeq_alt in E; rewrite E; apply Qle_refl | reflexivity].
  - left; split; [apply Qlt_alt in E; apply Qlt_le_weak; exact E | reflexivity].
  - right; split; [apply Qgt_alt in E; exact E | reflexivity].
Qed.

Lemma Py_max_shift (a b c : Q) : Py.max (a + c) (b + c) == Py.max a b + c.
Proof.
  destruct (Py_max_cases (a + c) (b + c)) as [[H1 ->] | [H1 ->]];
    destruct (Py_max_cases a b) as [[H2 ->] | [H2 ->]]; lra.
Qed.

Lemma Py_max_compat (a a' b b' : Q) :
  a == a' -> b == b' -> Py.max a b == Py.max a' b'.
Proof.
  intros Ha Hb.
  destruct (Py_max_cases a b) as [[H1 ->] | [H1 ->]];
    destruct (Py_max_cases a' b') as [[H2 ->] | [H2 ->]]; lra.
Qed.

(** ** The crop box *)

Lemma resize_width (p : QPointF) (b : DraggableRectItem) :
  handle_selected (resize_handle b) = true ->
  w (rect (ResizeHandle_mouseMoveEvent p b)) =
    Py.max (ptf_x p - xp (rect b) - w (rect b) + w (handle_rect (resize_handle b)) / 2)
           (ptf_y p - yp (rect b) - h (rect b) + h (handle_rect (resize_handle b)) / 2)
    + w (rect b)
  /\ h (rect (ResizeHandle_mouseMoveEvent p b)) =
    Py.max (ptf_x p - xp (rect b) - w (rect b) + w (handle_rect (resize_handle b)) / 2)
           (ptf_y p - yp (rect b) - h (rect b) + h (handle_rect (resize_handle b)) / 2)
    + h (rect b).
Proof.
  intros Hsel. unfold ResizeHandle_mouseMoveEvent. rewrite Hsel. simpl. split; reflexivity.
Qed.

Lemma resize_square (p : QPointF) (b : DraggableRectItem) :
  square b -> square (ResizeHandle_mouseMoveEvent p b).
Proof.
  unfold square. intros Hsq.
  destruct (handle_selected (resize_handle b)) eqn:Hsel.
  - destruct (resize_width p b Hsel) as [-> ->]. lra.
  - unfold ResizeHandle_mouseMoveEvent. rewrite Hsel. exact Hsq.
Qed.

Lemma resize_standard (p : QPointF) (b : DraggableRectItem) :
  standard_handle b -> standard_handle (ResizeHandle_mouseMoveEvent p b).
Proof.
  unfold standard_handle, ResizeHandle_mouseMoveEvent. intros Hh.
  destruct (handle_selected (resize_handle b)); simpl; exact Hh.
Qed.

(** C1 (as amended).  For a square box of side [side] that lies at the
    scene origin (its position is [(0, 0)], so that the corner [(x, y)] of
    the box in the scene is the origin of its rectangle), a corner resize
    made while the handle is selected gives the side
    [side + (max(dx, dy) + 20)], where [dx = pointerX - x - side] and
    [dy = pointerY - y - side] are measured from the far corner of the box
    to the pointer and 20 is half the side of the 40-unit handle.  The two
    sides of each equation apply the operations of lines 54-58 in the same
    order, up to exchanging the operands of one addition, adding the zero
    position and taking the common 20 out of [max]. *)
Theorem resize_side_half_handle (p : QPointF) (b : DraggableRectItem) (side : Q) :
  handle_selected (resize_handle b) = true ->
  standard_handle b ->
  ptf_x (pos b) == 0 -> ptf_y (pos b) == 0 ->
  w (rect b) == side -> h (rect b) == side ->
  let dx := ptf_x p - scene_x b - side in
  let dy := ptf_y p - scene_y b - side in
  w (rect (ResizeHandle_mouseMoveEvent p b)) == side + (Py.max dx dy + 20) /\
  h (rect (ResizeHandle_mouseMoveEvent p b)) == side + (Py.max dx dy + 20).
Proof.
  intros Hsel Hh Hx Hy Hw Hht dx dy.
  destruct (resize_width p b Hsel) as [-> ->].
  unfold standard_handle in Hh. rewrite Hh. simpl.
  set (half := 40 / 2).
  assert (Hhalf : half == 20) by reflexivity.
  assert (E : Py.max (ptf_x p - xp (rect b) - w (rect b) + half)
                     (ptf_y p - yp (rect b) - h (rect b) + half)
              == Py.max dx dy + 20).
  { rewrite <- Py_max_shift.
    apply Py_max_compat; unfold dx, dy, scene_x, scene_y; lra. }
  split; lra.
Qed.

(** ** The square invariant over whole sessions *)

Lemma init_inv : session_inv ImageProcessor_init.
Proof. split; [reflexivity | intros b Hb; discriminate Hb]. Qed.

Lemma draw_image_inv (d : bool) (self : ImageProcessor) :
  session_inv self -> session_inv (draw_image d self).
Proof.
  intros [Hwh Hbox]. unfold draw_image.
  destruct (image self) as [img|]; [|split; assumption].
  destruct d; (split; [exact Hwh|]); simpl; intros b Hb; [|discriminate Hb].
  injection Hb as <-. unfold square, standard_handle. simpl.
  rewrite Hwh. split; reflexivity.
Qed.

Lemma set_image_size_inv (size : string) (self self' : ImageProcessor) :
  session_inv self -> set_image_size size self = Ok self' -> session_inv self'.
Proof.
  intros [Hwh Hbox]. unfold set_image_size.
  destruct (String.eqb size "512 x 512");
    [|destruct (String.eqb size "1024 x 1024");
      [|destruct (String.eqb size "2048 x 2048")]];
    simpl; intros H; try discriminate H; injection H as <-;
    apply draw_image_inv; split; simpl; auto.
Qed.

Lemma on_box_inv (f : DraggableRectItem -> DraggableRectItem) (self : ImageProcessor) :
  (forall b, square b /\ standard_handle b -> square (f b) /\ standard_handle (f b)) ->
  session_inv self -> session_inv (on_box f self).
Proof.
  intros Hf [Hwh Hbox]. unfold on_box.
  destruct (box self) as [b|] eqn:Eb; [|split; [exact Hwh | rewrite Eb; exact Hbox]].
  split; [exact Hwh|]. simpl. intros b' Hb'. injection Hb' as <-.
  apply Hf, Hbox. reflexivity.
Qed.

Section SessionInvariant.

Variable QImage_of_file : string -> QImage.
Variable resample : QImage -> QSize -> Z -> Z -> Z.

Lemma load_image_inv (file_path open_dialog : string) (self : ImageProcessor) :
  session_inv self -> session_inv (load_image QImage_of_file file_path open_dialog self).
Proof.
  intros Hinv. unfold load_image.
  destruct (negb _); [|exact Hinv].
  apply draw_image_inv. destruct Hinv as [Hwh Hbox]. split; simpl; assumption.
Qed.

Lemma dropEvent_from_inv (urls : list string) (open_dialog : nat -> string) :
  forall (i : nat) (self : ImageProcessor),
  session_inv self ->
  session_inv (dropEvent_from QImage_of_file i urls open_dialog self).
Proof.
  induction urls as [|u urls IH]; intros i self Hinv; simpl; [exact Hinv|].
  apply IH, load_image_inv, Hinv.
Qed.

(** What [save_image] leaves alone. *)
Lemma save_image_frame (save_dialog : string -> string) (write_ok : bool)
    (self self' : ImageProcessor) (out : option SavedFile) :
  save_image resample save_dialog write_ok self = Ok (self', out) ->
  image_width self' = image_width self /\
  image_height self' = image_height self /\
  image self' = image self /\
  image_original self' = image_original self /\
  box self' = box self.
Proof.
  unfold save_image.
  destruct (image self) as [img|] eqn:Ei; [destruct (box self) as [b|] eqn:Eb|];
    try (intros H; injection H as <- <-; rewrite ?Ei, ?Eb; repeat split; reflexivity).
  destruct (offered_filename (suggested_filename self)) as [name|e]; simpl;
    [|intros H; discriminate H].
  destruct (negb _).
  - destruct (Py.last _) as [nm|e]; simpl; intros H; [|discriminate H].
    injection H as <- <-. simpl. rewrite ?Ei, ?Eb. repeat split; reflexivity.
  - intros H. injection H as <- <-. simpl. rewrite ?Ei, ?Eb. repeat split; reflexivity.
Qed.

Lemma step_inv (self self' : ImageProcessor) (e : event) :
  session_inv self -> step QImage_of_file resample self e = Ok self' ->
  session_inv self'.
Proof.
  intros Hinv. destruct e; simpl.
  - apply set_image_size_inv, Hinv.
  - intros H; injection H as <-. apply load_image_inv, Hinv.
  - intros H; injection H as <-. apply dropEvent_from_inv, Hinv.
  - destruct (save_image resample save_dialog write_ok self) as [[st out]|e] eqn:Es;
      simpl; intros H; [|discriminate H]. injection H as <-.
    destruct (save_image_frame _ _ _ _ _ Es) as (Hw & Hh & _ & _ & Hb).
    destruct Hinv as [Hwh Hbox]. split; [congruence | rewrite Hb; exact Hbox].
  - intros H; injection H as <-. apply on_box_inv; [|exact Hinv].
    intros b Hb. exact Hb.
  - intros H; injection H as <-. apply on_box_inv; [|exact Hinv].
    intros b Hb. exact Hb.
  - intros H; injection H as <-. apply on_box_inv; [|exact Hinv].
    intros b [Hs Hh]. split; [apply resize_square, Hs | apply resize_standard, Hh].
Qed.

Lemma run_inv (es : list event) :
  forall self self' : ImageProcessor,
  session_inv self -> run QImage_of_file resample self es = Ok self' ->
  session_inv self'.
Proof.
  induction es as [|e es IH]; intros self self' Hinv; simpl.
  - intros H; injection H as <-. exact Hinv.
  - destruct (step QImage_of_file resample self e) as [st|x] eqn:Es; simpl;
      [|intros H; discriminate H].
    apply IH. eapply step_inv; eassumption.
Qed.

End SessionInvariant.

(** C2.  A corner resize of a square box gives a square box, whatever the
    pointer position; and since [draw_image] only creates square boxes,
    the box is square after every sequence of events of a session, resizes
    that shrink it included. *)
Theorem square_after_every_resize :
  (forall (p : QPointF) (b : DraggableRectItem),
      square b -> square (ResizeHandle_mouseMoveEvent p b)) /\
  (forall (QImage_of_file : string -> QImage)
          (resample : QImage -> QSize -> Z -> Z -> Z)
          (es : list event) (self : ImageProcessor) (b : DraggableRectItem),
      run QImage_of_file resample ImageProcessor_init es = Ok self ->
      box self = Some b -> square b).
Proof.
  split.
  - exact resize_square.
  - intros fs rs es self b Hrun Hb.
    destruct (run_inv fs rs es _ _ init_inv Hrun) as [_ Hbox].
    apply (Hbox b Hb).
Qed.

(** ** Strings *)

Local Open Scope string_scope.

Lemma append_empty_r (s : string) : s ++ "" = s.
Proof. induction s as [|c s IH]; simpl; [reflexivity | rewrite IH; reflexivity]. Qed.

Lemma append_eq_empty (s t : string) : s ++ t = "" -> s = "" /\ t = "".
Proof. destruct s; simpl; intros H; [split; [reflexivity | exact H] | discriminate H]. Qed.

(** ** The matcher decides prefix membership *)

Lemma nullable_complete (r : Re.regex) (u : string) :
  Re.lang r u -> u = "" -> Re.nullable r = true.
Proof.
  induction 1 as [ | p c Hp | r s u v Hr IHr Hs IHs | r s u Hr IHr | r s u Hs IHs
                 | r | r u v Hr IHr Hs IHs ]; intros E; simpl; try reflexivity.
  - discriminate E.
  - apply append_eq_empty in E as [-> ->]. rewrite IHr, IHs; reflexivity.
  - rewrite IHr; [reflexivity | exact E].
  - rewrite IHs; [apply orb_true_r | exact E].
Qed.

Lemma deriv_complete (r : Re.regex) (u : string) :
  Re.lang r u -> forall c s, u = String c s -> Re.lang (Re.deriv c r) s.
Proof.
  induction 1 as [ | p a Hp | r s u v Hr IHr Hs IHs | r s u Hr IHr | r s u Hs IHs
                 | r | r u v Hr IHr Hs IHs ]; intros c t E; simpl.
  - discriminate E.
  - injection E as -> <-. rewrite Hp. constructor.
  - destruct u as [|a u']; simpl in E.
    + rewrite (nullable_complete r "" Hr eq_refl).
      apply Re.lang_alt_r. apply IHs. exact E.
    + injection E as -> <-.
      assert (Hc : Re.lang (Re.Cat (Re.deriv c r) s) (u' ++ v)).
      { apply Re.lang_cat; [apply IHr; reflexivity | exact Hs]. }
      destruct (Re.nullable r); [apply Re.lang_alt_l|]; exact Hc.
  - apply Re.lang_alt_l. apply IHr. exact E.
  - apply Re.lang_alt_r. apply IHs. exact E.
  - discriminate E.
  - destruct u as [|a u']; simpl in E.
    + apply (IHs c t E).
    + injection E as -> <-.
      apply Re.lang_cat; [apply IHr; reflexivity | exact Hs].
Qed.

Lemma match_complete (u : string) :
  forall (r : Re.regex) (v : string), Re.lang r u -> Re.match_ r (u ++ v) = true.
Proof.
  induction u as [|c u IH]; intros r v Hl.
  - simpl. destruct v; simpl; rewrite (nullable_complete r "" Hl eq_refl); reflexivity.
  - simpl. rewrite (IH (Re.deriv c r) v); [apply orb_true_r|].
    apply (deriv_complete r _ Hl c u eq_refl).
Qed.

Lemma nullable_sound (r : Re.regex) : Re.nullable r = true -> Re.lang r "".
Proof.
  induction r as [ | | p | r IHr s IHs | r IHr s IHs | r IHr ]; simpl; intros H;
    try discriminate H.
  - constructor.
  - apply andb_true_iff in H as [Hr Hs].
    apply (Re.lang_cat r s "" ""); [apply IHr, Hr | apply IHs, Hs].
  - apply orb_true_iff in H as [Hr | Hs];
      [apply Re.lang_alt_l, IHr, Hr | apply Re.lang_alt_r, IHs, Hs].
  - constructor.
Qed.

Lemma deriv_sound (r : Re.regex) :
  forall (c : ascii) (s : string), Re.lang (Re.deriv c r) s -> Re.lang r (String c s).
Proof.
  induction r as [ | | p | r IHr s IHs | r IHr s IHs | r IHr ]; simpl; intros c t H.
  - inversion H.
  - inversion H.
  - destruct (p c) eqn:Hp; inversion H; subst. constructor. exact Hp.
  - assert (Hcat : forall t', Re.lang (Re.Cat (Re.deriv c r) s) t' ->
                              Re.lang (Re.Cat r s) (String c t')).
    { intros t' H'. inversion H'; subst.
      apply (Re.lang_cat r s (String c u) v); [apply IHr; assumption | assumption]. }
    destruct (Re.nullable r) eqn:Hn; [|apply Hcat, H].
    inversion H; subst; [apply Hcat; assumption|].
    apply (Re.lang_cat r s "" (String c t)); [apply nullable_sound, Hn | apply IHs; assumption].
  - inversion H; subst;
      [apply Re.lang_alt_l, IHr | apply Re.lang_alt_r, IHs]; assumption.
  - inversion H; subst.
    apply (Re.lang_star_cons r (String c u) v); [apply IHr; assumption | assumption].
Qed.

Lemma match_sound (s : string) :
  forall r : Re.regex,
  Re.match_ r s = true -> exists u v, s = u ++ v /\ Re.lang r u.
Proof.
  induction s as [|c s IH]; intros r H; simpl in H.
  - rewrite orb_false_r in H. exists "", "". split; [reflexivity | apply nullable_sound, H].
  - apply orb_true_iff in H as [Hn | Hd].
    + exists "", (String c s). split; [reflexivity | apply nullable_sound, Hn].
    + destruct (IH _ Hd) as (u & v & -> & Hl).
      exists (String c u), v. split; [reflexivity | apply deriv_sound, Hl].
Qed.

(** [re.match] succeeds exactly when a prefix of the subject is in the
    language of the pattern. *)
Lemma match_spec (r : Re.regex) (s : string) :
  Re.match_ r s = true <-> exists u v, s = u ++ v /\ Re.lang r u.
Proof.
  split; [apply match_sound|].
  intros (u & v & -> & Hl). apply match_complete, Hl.
Qed.

(** ** Suggested file names *)

Example offered_examples :
  map offered_filename
    ["image_001.jpg"; "photo.jpg"; "a_999.jpg"; "a_001.jpgx"; "my_image_001.jpg"]
  = [Ok "image_002.jpg"; Ok "photo.jpg"; Ok "a_1000.jpg"; Ok "a_002.jpg";
     Raise (ValueError "invalid literal for int() with base 10: 'image'")].
Proof. vm_compute. reflexivity. Qed.

Example match_examples :
  map (Re.match_ filename_pattern)
    ["image_001.jpg"; "photo.jpg"; "_001.jpg"; "a_01.jpg"; "a_001xjpg"; " a_001.jpg"]
  = [true; false; false; false; true; false].
Proof. vm_compute. reflexivity. Qed.

Lemma is_digit_decimal (c : ascii) : Py.is_digit c = true -> In c decimal_digits.
Proof.
  destruct c as [[] [] [] [] [] [] [] []]; vm_compute; intros H;
    try discriminate H; tauto.
Qed.

Lemma all_tails_ok :
  forallb (fun d1 => forallb (fun d2 => forallb (tail_ok d1 d2) decimal_digits)
                       decimal_digits) decimal_digits = true.
Proof. vm_compute. reflexivity. Qed.

Lemma tail_ok_digits (d1 d2 d3 : ascii) :
  Py.is_digit d1 = true -> Py.is_digit d2 = true -> Py.is_digit d3 = true ->
  tail_ok d1 d2 d3 = true.
Proof.
  intros H1 H2 H3.
  pose proof all_tails_ok as H.
  rewrite forallb_forall in H. specialize (H d1 (is_digit_decimal d1 H1)).
  rewrite forallb_forall in H. specialize (H d2 (is_digit_decimal d2 H2)).
  rewrite forallb_forall in H. exact (H d3 (is_digit_decimal d3 H3)).
Qed.

Lemma counter_of_numbered_tail (d1 d2 d3 : ascii) :
  Py.is_digit d1 = true -> Py.is_digit d2 = true -> Py.is_digit d3 = true ->
  counter_of_tail (String d1 (String d2 (String d3 ".jpg")))
    = Ok (counter_value d1 d2 d3) /\
  Py.zfill (Py.decimal (counter_value d1 d2 d3)) 3
    = String d1 (String d2 (String d3 "")) /\
  Py.str (counter_value d1 d2 d3 + 1) = Ok (Py.decimal (counter_value d1 d2 d3 + 1)) /\
  (counter_value d1 d2 d3 < 999 ->
   String.length (Py.zfill (Py.decimal (counter_value d1 d2 d3 + 1)) 3) = 3%nat)%Z.
Proof.
  intros H1 H2 H3. pose proof (tail_ok_digits d1 d2 d3 H1 H2 H3) as H.
  unfold tail_ok in H.
  destruct (counter_of_tail _) as [m|e]; [|discriminate H].
  apply andb_true_iff in H as [H Hlen]. apply andb_true_iff in H as [H Hstr].
  apply andb_true_iff in H as [Hm Hz].
  apply Z.eqb_eq in Hm. apply String.eqb_eq in Hz. subst m.
  split; [reflexivity|]. split; [exact Hz|]. split.
  { destruct (Py.str (counter_value d1 d2 d3 + 1)) as [text|e]; [|discriminate Hstr].
    apply String.eqb_eq in Hstr. rewrite Hstr. reflexivity. }
  intros Hlt. apply orb_true_iff in Hlen as [Hge | Hl].
  - apply Z.leb_le in Hge. lia.
  - apply Nat.eqb_eq in Hl. exact Hl.
Qed.

Lemma split_stem (sep : ascii) (stem rest : string) :
  all_chars (fun c => negb (Ascii.eqb c sep)) stem = true ->
  Py.split sep (stem ++ String sep rest) = stem :: Py.split sep rest.
Proof.
  induction stem as [|c stem IH]; simpl; intros H.
  - rewrite Ascii.eqb_refl. reflexivity.
  - apply andb_true_iff in H as [Hc Hs]. apply negb_true_iff in Hc.
    rewrite Hc, (IH Hs). reflexivity.
Qed.

Lemma all_chars_impl (p q : ascii -> bool) (s : string) :
  (forall c, p c = true -> q c = true) ->
  all_chars p s = true -> all_chars q s = true.
Proof.
  intros Hpq. induction s as [|c s IH]; simpl; [reflexivity|].
  intros H. apply andb_true_iff in H as [Hc Hs].
  rewrite (Hpq c Hc), (IH Hs). reflexivity.
Qed.

Lemma is_stem_inv (s : string) :
  is_stem s = true ->
  s <> "" /\ all_chars Re.is_word s = true /\
  all_chars (fun c => negb (Ascii.eqb c "_")) s = true.
Proof.
  unfold is_stem. intros H. apply andb_true_iff in H as [Hne Hall].
  split; [intros ->; discriminate Hne|].
  split; (eapply all_chars_impl; [|exact Hall]); unfold is_stem_char; intros c Hc;
    apply andb_true_iff in Hc as [Hw Hu]; assumption.
Qed.

Lemma lang_star_sym (p : ascii -> bool) (s : string) :
  all_chars p s = true -> Re.lang (Re.Star (Re.Sym p)) s.
Proof.
  induction s as [|c s IH]; simpl; intros H; [constructor|].
  apply andb_true_iff in H as [Hc Hs].
  apply (Re.lang_star_cons (Re.Sym p) (String c "") s);
    [constructor; exact Hc | apply IH, Hs].
Qed.

Lemma lang_sym_cons (p : ascii -> bool) (r : Re.regex) (c : ascii) (s : string) :
  p c = true -> Re.lang r s -> Re.lang (Re.Cat (Re.Sym p) r) (String c s).
Proof.
  intros Hc Hs.
  apply (Re.lang_cat (Re.Sym p) r (String c "") s); [constructor; exact Hc | exact Hs].
Qed.

Lemma numbered_name_matches (stem : string) (d1 d2 d3 : ascii) :
  is_stem stem = true ->
  Py.is_digit d1 = true -> Py.is_digit d2 = true -> Py.is_digit d3 = true ->
  Re.match_ filename_pattern (numbered_name stem d1 d2 d3) = true.
Proof.
  intros Hs H1 H2 H3. destruct (is_stem_inv stem Hs) as (Hne & Hw & _).
  rewrite <- (append_empty_r (numbered_name stem d1 d2 d3)).
  apply match_complete. unfold numbered_name, filename_pattern.
  apply Re.lang_cat.
  - destruct stem as [|c stem]; [contradiction Hne; reflexivity|].
    simpl in Hw. apply andb_true_iff in Hw as [Hc Hw].
    apply (Re.lang_cat _ _ (String c "") stem);
      [constructor; exact Hc | apply lang_star_sym, Hw].
  - simpl. apply lang_sym_cons; [reflexivity|].
    apply (Re.lang_cat _ _ (String d1 (String d2 (String d3 ""))) ".jpg").
    + repeat (apply lang_sym_cons; [assumption|]). constructor.
    + repeat (apply lang_sym_cons; [reflexivity|]). constructor.
Qed.

Lemma incremented_after_stem (stem tail : string) :
  all_chars (fun c => negb (Ascii.eqb c "_")) stem = true ->
  incremented_filename (stem ++ String "_" tail)
    = (n <- counter_of_tail tail ;;
       counter <- Py.str (n + 1) ;;
       Ok (stem ++ "_" ++ Py.zfill counter 3 ++ ".jpg")).
Proof.
  intros Hu. unfold incremented_filename, counter_of_tail.
  rewrite (split_stem "_" stem tail Hu).
  change (Py.index (stem :: Py.split "_" tail) 1) with (Py.index (Py.split "_" tail) 0).
  change (Py.index (stem :: Py.split "_" tail) 0) with (Ok stem).
  simpl bind at 1.
  destruct (Py.index (Py.split "_" tail) 0) as [rest|e]; simpl; [|reflexivity].
  destruct (Py.index (Py.split "." rest) 0) as [digits|e]; simpl; [|reflexivity].
  destruct (Py.int digits) as [n|e]; reflexivity.
Qed.

Lemma incremented_numbered_name (stem : string) (d1 d2 d3 : ascii) :
  is_stem stem = true ->
  Py.is_digit d1 = true -> Py.is_digit d2 = true -> Py.is_digit d3 = true ->
  offered_filename (numbered_name stem d1 d2 d3)
    = Ok (counter_name stem (counter_value d1 d2 d3 + 1)).
Proof.
  intros Hs H1 H2 H3. unfold offered_filename.
  rewrite (numbered_name_matches stem d1 d2 d3 Hs H1 H2 H3).
  destruct (is_stem_inv stem Hs) as (_ & _ & Hu).
  destruct (counter_of_numbered_tail d1 d2 d3 H1 H2 H3) as (Hc & _ & Hstr & _).
  unfold numbered_name.
  change ("_" ++ String d1 (String d2 (String d3 ".jpg")))
    with (String "_" (String d1 (String d2 (String d3 ".jpg")))).
  rewrite (incremented_after_stem stem _ Hu), Hc. cbn [bind].
  rewrite Hstr. reflexivity.
Qed.

(** ** Saving *)

Lemma split_not_nil (sep : ascii) (s : string) : Py.split sep s <> [].
Proof.
  induction s as [|c s IH]; simpl; [discriminate|].
  destruct (Ascii.eqb c sep); [discriminate|].
  destruct (Py.split sep s); [contradiction IH; reflexivity | discriminate].
Qed.

Lemma last_ok {A : Type} (l : list A) : l <> [] -> exists a, Py.last l = Ok a.
Proof.
  induction l as [|a l IH]; intros Hne; [contradiction Hne; reflexivity|].
  destruct l as [|a' l']; [exists a; reflexivity|].
  apply IH. discriminate.
Qed.

Lemma with_suggested_same (self : ImageProcessor) :
  with_suggested (suggested_filename self) (message_label self) self = self.
Proof. destruct self; reflexivity. Qed.

Lemma offered_unmatched (name : string) :
  Re.match_ filename_pattern name = false -> offered_filename name = Ok name.
Proof. unfold offered_filename. intros ->. reflexivity. Qed.

Section Saving.

Variable resample : QImage -> QSize -> Z -> Z -> Z.

Lemma save_image_noop (save_dialog : string -> string) (write_ok : bool)
    (self : ImageProcessor) :
  image self = None \/ box self = None ->
  save_image resample save_dialog write_ok self = Ok (self, None).
Proof.
  unfold save_image. intros [H | H]; rewrite H; [reflexivity|].
  destruct (image self); reflexivity.
Qed.

Lemma save_image_raise (save_dialog : string -> string) (write_ok : bool)
    (self : ImageProcessor) (img : QImage) (b : DraggableRectItem) (e : exn) :
  image self = Some img -> box self = Some b ->
  offered_filename (suggested_filename self) = Raise e ->
  save_image resample save_dialog write_ok self = Raise e.
Proof.
  intros Hi Hb He. unfold save_image. rewrite Hi, Hb, He. reflexivity.
Qed.

Lemma save_image_cancelled (save_dialog : string -> string) (write_ok : bool)
    (self : ImageProcessor) (img : QImage) (b : DraggableRectItem) (offered : string) :
  image self = Some img -> box self = Some b ->
  offered_filename (suggested_filename self) = Ok offered ->
  save_dialog offered = "" ->
  save_image resample save_dialog write_ok self
    = Ok (with_suggested offered (message_label self) self, None).
Proof.
  intros Hi Hb Ho Hd. unfold save_image. rewrite Hi, Hb, Ho. simpl.
  rewrite Hd. simpl. unfold with_suggested. rewrite Hi, Hb. reflexivity.
Qed.

Lemma save_image_kept (save_dialog : string -> string) (write_ok : bool)
    (self : ImageProcessor) (img : QImage) (b : DraggableRectItem) (offered : string) :
  image self = Some img -> box self = Some b ->
  offered_filename (suggested_filename self) = Ok offered ->
  keeps_offered_name save_dialog offered ->
  save_image resample save_dialog write_ok self
    = Ok (with_suggested offered "Saved!" self,
          written_file resample write_ok (save_dialog offered) self img b).
Proof.
  intros Hi Hb Ho [Hne Hlast]. unfold save_image. rewrite Hi, Hb, Ho. simpl.
  destruct (String.eqb (save_dialog offered) "") eqn:E;
    [apply String.eqb_eq in E; contradiction|].
  simpl. rewrite Hlast. simpl. unfold with_suggested. rewrite Hi, Hb. reflexivity.
Qed.


(** What a save that wrote a file went through. *)
Lemma save_image_written (save_dialog : string -> string) (write_ok : bool)
    (self self' : ImageProcessor) (file : SavedFile) :
  save_image resample save_dialog write_ok self = Ok (self', Some file) ->
  exists (img : QImage) (b : DraggableRectItem) (offered : string),
    image self = Some img /\ box self = Some b /\
    offered_filename (suggested_filename self) = Ok offered /\
    save_dialog offered <> "" /\
    Py.last (Py.split "/" (save_dialog offered)) = Ok (suggested_filename self') /\
    file = mkSavedFile (save_dialog offered) "JPEG" (export_image resample self img b) /\
    QImage_isNull (export_image resample self img b) = false /\
    write_ok = true /\
    message_label self' = "Saved!".
Proof.
  unfold save_image. intros H.
  destruct (image self) as [img|] eqn:Hi; [|discriminate H].
  destruct (box self) as [b|] eqn:Hb; [|discriminate H].
  destruct (offered_filename (suggested_filename self)) as [offered|e];
    [|discriminate H].
  cbn [bind suggested_filename image_width image_height] in H.
  destruct (String.eqb (save_dialog offered) "") eqn:E; [discriminate H|].
  cbn [negb] in H.
  destruct (Py.last (Py.split "/" (save_dialog offered))) as [name|e] eqn:El;
    [|discriminate H].
  cbn [bind] in H.
  fold (export_image resample self img b) in H.
  destruct write_ok; [|discriminate H].
  destruct (QImage_isNull (export_image resample self img b)) eqn:En;
    [discriminate H|].
  cbn [andb negb] in H. injection H as <- <-.
  exists img, b, offered. repeat split; [|exact El|exact En].
  intros Hd. rewrite Hd in E. discriminate E.
Qed.

End Saving.

(** C3 (as amended).  For every save that writes a file, the next suggested
    name is the last component of the path chosen in the dialog, the dialog
    having been offered the name lines 379-380 compute.  Hence, when the
    user keeps the offered name: a suggested name [stem_NNN.jpg] (a stem of
    word characters other than the underscore, three digits) becomes the
    same stem with the counter incremented by 1 and zero-padded to at least
    three digits (exactly three below 999); a suggested name that the
    pattern of line 379 does not match is left unchanged; and
    "image_001.jpg" becomes "image_002.jpg".  Such saves exist: with an
    image and a box, a name offered without exception, a path chosen, a
    crop that is not empty and a file system that accepts the file, the
    save writes a file. *)
Theorem next_suggested_filename
    (resample : QImage -> QSize -> Z -> Z -> Z) (save_dialog : string -> string)
    (self : ImageProcessor) :
  (forall (write_ok : bool) (self' : ImageProcessor) (file : SavedFile),
      save_image resample save_dialog write_ok self = Ok (self', Some file) ->
      (exists offered : string,
          offered_filename (suggested_filename self) = Ok offered /\
          saved_path file = save_dialog offered /\
          Py.last (Py.split "/" (saved_path file)) = Ok (suggested_filename self')) /\
      (forall (stem : string) (d1 d2 d3 : ascii),
          is_stem stem = true ->
          Py.is_digit d1 = true -> Py.is_digit d2 = true -> Py.is_digit d3 = true ->
          suggested_filename self = numbered_name stem d1 d2 d3 ->
          let n := counter_value d1 d2 d3 in
          keeps_offered_name save_dialog (counter_name stem (n + 1)) ->
          suggested_filename self' = counter_name stem (n + 1) /\
          Py.zfill (Py.decimal n) 3 = String d1 (String d2 (String d3 "")) /\
          (n < 999 -> String.length (Py.zfill (Py.decimal (n + 1)) 3) = 3%nat)%Z) /\
      (Re.match_ filename_pattern (suggested_filename self) = false ->
       keeps_offered_name save_dialog (suggested_filename self) ->
       suggested_filename self' = suggested_filename self) /\
      (suggested_filename self = "image_001.jpg" ->
       keeps_offered_name save_dialog "image_002.jpg" ->
       suggested_filename self' = "image_002.jpg")) /\
  (forall (img : QImage) (b : DraggableRectItem) (offered : string),
      image self = Some img -> box self = Some b ->
      offered_filename (suggested_filename self) = Ok offered ->
      save_dialog offered <> "" ->
      QImage_isNull (export_image resample self img b) = false ->
      exists (self' : ImageProcessor) (file : SavedFile),
        save_image resample save_dialog true self = Ok (self', Some file)).
Proof.
  split.
  - intros write_ok self' file Hsave.
    destruct (save_image_written resample save_dialog write_ok self self' file Hsave)
      as (img & b & offered & Hi & Hb & Ho & Hne & Hlast & -> & _ & _ & _).
    assert (Hkept : forall name,
               offered_filename (suggested_filename self) = Ok name ->
               keeps_offered_name save_dialog name ->
               suggested_filename self' = name).
    { intros name Hname [_ Hl]. rewrite Ho in Hname. injection Hname as ->.
      rewrite Hlast in Hl. injection Hl as ->. reflexivity. }
    split; [|split; [|split]].
    + exists offered. split; [exact Ho|]. split; [reflexivity | exact Hlast].
    + intros stem d1 d2 d3 Hs H1 H2 H3 Hname n Hkeep.
      destruct (counter_of_numbered_tail d1 d2 d3 H1 H2 H3) as (_ & Hz & _ & Hlen).
      split; [|split; assumption].
      apply Hkept; [|exact Hkeep].
      rewrite Hname. apply incremented_numbered_name; assumption.
    + intros Hm Hkeep. apply Hkept; [|exact Hkeep]. apply offered_unmatched, Hm.
    + intros Hname Hkeep. apply Hkept; [|exact Hkeep]. rewrite Hname. reflexivity.
  - intros img b offered Hi Hb Ho Hne Hnull.
    destruct (last_ok (Py.split "/" (save_dialog offered)) (split_not_nil _ _))
      as [name Hname].
    unfold save_image. rewrite Hi, Hb, Ho.
    cbn [bind suggested_filename image_width image_height].
    destruct (String.eqb (save_dialog offered) "") eqn:E;
      [apply String.eqb_eq in E; contradiction|].
    cbn [negb]. rewrite Hname. cbn [bind].
    fold (export_image resample self img b). rewrite Hnull.
    eexists; eexists; reflexivity.
Qed.

(** C4 (as amended).  Lines 379-380 replace the suggested name by the name
    they offer before the save dialog is shown, and a cancelled dialog
    leaves it there.  So a save attempt whose dialog is cancelled writes no
    file and: changes nothing when no image or no box exists; changes
    nothing when the suggested name is one that the pattern of line 379
    does not match; leaves the name line 380 returns whenever it returns
    one; and in particular leaves the counter of [stem_NNN.jpg] (a stem
    without underscore) incremented by 1. *)
Theorem cancelled_save_keeps_offered_name
    (resample : QImage -> QSize -> Z -> Z -> Z) (save_dialog : string -> string)
    (write_ok : bool) (self : ImageProcessor) :
  (forall name, save_dialog name = "") ->
  (image self = None \/ box self = None ->
   save_image resample save_dialog write_ok self = Ok (self, None)) /\
  (forall (img : QImage) (b : DraggableRectItem),
      image self = Some img -> box self = Some b ->
      (Re.match_ filename_pattern (suggested_filename self) = false ->
       save_image resample save_dialog write_ok self = Ok (self, None)) /\
      (forall offered : string,
          offered_filename (suggested_filename self) = Ok offered ->
          save_image resample save_dialog write_ok self
            = Ok (with_suggested offered (message_label self) self, None)) /\
      (forall (stem : string) (d1 d2 d3 : ascii),
          is_stem stem = true ->
          Py.is_digit d1 = true -> Py.is_digit d2 = true -> Py.is_digit d3 = true ->
          suggested_filename self = numbered_name stem d1 d2 d3 ->
          save_image resample save_dialog write_ok self
            = Ok (with_suggested (counter_name stem (counter_value d1 d2 d3 + 1))
                    (message_label self) self,
                  None))).
Proof.
  intros Hcancel. split; [apply save_image_noop|].
  intros img b Hi Hb. split; [|split].
  - intros Hm.
    rewrite (save_image_cancelled resample save_dialog write_ok self img b
               (suggested_filename self) Hi Hb (offered_unmatched _ Hm) (Hcancel _)).
    rewrite with_suggested_same. reflexivity.
  - intros offered Ho.
    apply (save_image_cancelled resample save_dialog write_ok self img b _ Hi Hb Ho).
    apply Hcancel.
  - intros stem d1 d2 d3 Hs H1 H2 H3 Hname.
    apply (save_image_cancelled resample save_dialog write_ok self img b _ Hi Hb);
      [|apply Hcancel].
    rewrite Hname. apply incremented_numbered_name; assumption.
Qed.

(** C8.  A save attempt made when no image is loaded or no box exists is a
    silent no-op: no exception, no file written, and the state is the same
    afterwards. *)
Theorem save_without_image_or_box
    (QImage_of_file : string -> QImage)
    (resample : QImage -> QSize -> Z -> Z -> Z) (save_dialog : string -> string)
    (write_ok : bool) (self : ImageProcessor) :
  image self = None \/ box self = None ->
  save_image resample save_dialog write_ok self = Ok (self, None) /\
  step QImage_of_file resample self (SaveClicked save_dialog write_ok) = Ok self.
Proof.
  intros H. pose proof (save_image_noop resample save_dialog write_ok self H) as E.
  split; [exact E|]. simpl. rewrite E. reflexivity.
Qed.

(** ** Selecting a size *)

Local Open Scope Q_scope.

Lemma draw_image_frame (d : bool) (self : ImageProcessor) :
  image_width (draw_image d self) = image_width self /\
  image_height (draw_image d self) = image_height self /\
  image (draw_image d self) = image self /\
  suggested_filename (draw_image d self) = suggested_filename self.
Proof.
  unfold draw_image. destruct (image self) eqn:E; [destruct d|]; simpl;
    rewrite ?E; repeat split; reflexivity.
Qed.

Lemma draw_image_box (self : ImageProcessor) (img : QImage) :
  image self = Some img ->
  box (draw_image true self)
    = Some (setPen 20
              (setPos
                 (mkQPointF
                    (inject_Z (pt_x (QRect_center (QImage_rect img))
                               - image_width self / 2)%Z)
                    (inject_Z (pt_y (QRect_center (QImage_rect img))
                               - image_height self / 2)%Z))
                 (DraggableRectItem_init
                    (mkQRectF 0 0 (inject_Z (image_width self))
                       (inject_Z (image_height self)))))).
Proof. unfold draw_image. intros ->. reflexivity. Qed.

Lemma set_image_size_target (size : string) (side : Z) (self : ImageProcessor) :
  In (size, side) size_targets ->
  set_image_size size self
    = Ok (draw_image true
            (mkImageProcessor side side (image self) (image_original self)
               (box self) (suggested_filename self) (message_label self))).
Proof.
  unfold size_targets. simpl.
  intros [H | [H | [H | []]]]; injection H as <- <-; reflexivity.
Qed.

Lemma set_image_size_unknown (size : string) (self : ImageProcessor) :
  size <> "512 x 512"%string -> size <> "1024 x 1024"%string ->
  size <> "2048 x 2048"%string ->
  set_image_size size self = Raise (ValueError ("Invalid size: " ++ size)).
Proof.
  intros H1 H2 H3. unfold set_image_size.
  apply String.eqb_neq in H1, H2, H3. rewrite H1, H2, H3. reflexivity.
Qed.

(** The centre that [QRect::center] reports is within one unit of the
    geometric centre. *)
Lemma centre_offset (W half : Z) :
  Qabs (inject_Z (Z.quot (0 + (0 + W - 1)) 2 - half)
        - (inject_Z W / 2 - inject_Z (2 * half) / 2)) <= 1.
Proof.
  set (q := Z.quot (0 + (0 + W - 1)) 2).
  assert (Hq : (2 * q <= W <= 2 * q + 2)%Z).
  { unfold q. Z.to_euclidean_division_equations. lia. }
  destruct Hq as [Hlo Hhi].
  rewrite Zle_Qle in Hlo, Hhi.
  rewrite inject_Z_plus, inject_Z_mult in Hhi. rewrite inject_Z_mult in Hlo.
  assert (E1 : 2 * (inject_Z W / 2) == inject_Z W) by field.
  assert (E2 : inject_Z (2 * half) / 2 == inject_Z half).
  { rewrite inject_Z_mult. field. }
  assert (E3 : inject_Z (q - half) == inject_Z q - inject_Z half).
  { unfold Z.sub. rewrite inject_Z_plus, inject_Z_opp. reflexivity. }
  apply Qabs_Qle_condition.
  set (hw := inject_Z W / 2) in *. set (hs := inject_Z (2 * half) / 2) in *.
  change (inject_Z 2) with 2 in *.
  split; lra.
Qed.

(** C5.  With an image loaded, selecting the target of side 512, 1024 or
    2048 produces a box whose width and height are the target side and
    which is centred on the image: its position is within one unit of
    [imageWidth / 2 - side / 2] and [imageHeight / 2 - side / 2]. *)
Theorem selected_box_centred
    (size : string) (side : Z) (self : ImageProcessor) (img : QImage) :
  image self = Some img ->
  In (size, side) size_targets ->
  exists (self' : ImageProcessor) (b : DraggableRectItem),
    set_image_size size self = Ok self' /\ box self' = Some b /\
    w (rect b) == inject_Z side /\ h (rect b) == inject_Z side /\
    xp (rect b) == 0 /\ yp (rect b) == 0 /\
    Qabs (ptf_x (pos b) - (inject_Z (img_width img) / 2 - inject_Z side / 2)) <= 1 /\
    Qabs (ptf_y (pos b) - (inject_Z (img_height img) / 2 - inject_Z side / 2)) <= 1.
Proof.
  intros Hi Hin. rewrite (set_image_size_target size side self Hin).
  eexists; eexists. split; [reflexivity|].
  split; [apply draw_image_box; exact Hi|].
  assert (Hside : side = (2 * (side / 2))%Z).
  { unfold size_targets in Hin. simpl in Hin.
    destruct Hin as [H | [H | [H | []]]]; injection H as _ <-; reflexivity. }
  simpl. repeat split; try reflexivity.
  - rewrite Hside at 2. apply centre_offset.
  - rewrite Hside at 2. apply centre_offset.
Qed.

(** C9.  A size string other than the three entries of the selector
    raises [ValueError] and changes nothing; each of the three entries
    sets the target width and height to its dimensions without error. *)
Theorem set_image_size_enumerated (self : ImageProcessor) :
  (forall size : string,
      size <> "512 x 512"%string -> size <> "1024 x 1024"%string ->
      size <> "2048 x 2048"%string ->
      set_image_size size self = Raise (ValueError ("Invalid size: " ++ size))) /\
  (forall (size : string) (side : Z),
      In (size, side) size_targets ->
      exists self' : ImageProcessor,
        set_image_size size self = Ok self' /\
        image_width self' = side /\ image_height self' = side).
Proof.
  split.
  - intros size. apply set_image_size_unknown.
  - intros size side Hin. rewrite (set_image_size_target size side self Hin).
    eexists. split; [reflexivity|].
    destruct (draw_image_frame true
                (mkImageProcessor side side (image self) (image_original self)
                   (box self) (suggested_filename self) (message_label self)))
      as (Hw & Hh & _).
    rewrite Hw, Hh. split; reflexivity.
Qed.

(** ** Cropping *)

Example qRound_examples :
  map qRound [5 # 2; - (5 # 2); 7 # 3; - (1 # 3); 245] = [3; -3; 2; 0; 245]%Z.
Proof. vm_compute. reflexivity. Qed.

Lemma cropped_image_copy (img : QImage) (b : DraggableRectItem) :
  cropped_image img b = QImage_copy img (crop_rect b).
Proof. reflexivity. Qed.

Lemma QRect_isNull_size (r : QRect) :
  QRect_isNull r = true <-> QRect_width r = 0%Z /\ QRect_height r = 0%Z.
Proof.
  unfold QRect_isNull, QRect_width, QRect_height.
  rewrite andb_true_iff, !Z.eqb_eq. lia.
Qed.

Lemma copy_positive (img : QImage) (r : QRect) :
  QImage_isNull img = false ->
  (0 < QRect_width r)%Z -> (0 < QRect_height r)%Z ->
  QImage_copy img r
    = mkQImage (QRect_width r) (QRect_height r)
        (fun i j =>
           if inside img (QRect_x r + i)%Z (QRect_y r + j)%Z
           then img_pixel img (QRect_x r + i)%Z (QRect_y r + j)%Z
           else 0%Z).
Proof.
  intros Hn Hw Hh. unfold QImage_copy. rewrite Hn.
  destruct (QRect_isNull r) eqn:E; [apply QRect_isNull_size in E; lia|].
  destruct (Z.leb_spec (QRect_width r) 0); [lia|].
  destruct (Z.leb_spec (QRect_height r) 0); [lia|]. reflexivity.
Qed.

(** C6 (as amended).  Cropping is a total operation: no region makes it
    raise.  For a loaded (non-null) image and a requested region (the box's
    bounding rectangle at the box's position, rounded to integers) whose
    corners and sizes are values of Qt's 32-bit [int]: when the region has
    positive width and height and Qt can allocate an image of that size,
    the result has exactly the size of the region, whatever part of it lies
    outside the image, and its pixels outside the image are 0 (the result
    is padded, not clipped); when Qt cannot allocate it, the result is the
    empty image.  When the region has a non-positive width or height the
    result is the empty image, except that a region of width 0 and height 0
    gives a copy of the whole image (the empty image if that copy cannot be
    allocated).  The crop of [save_image] is the case where every
    allocation succeeds. *)
Theorem crop_has_requested_size
    (can_allocate : Z -> Z -> bool) (img : QImage) (b : DraggableRectItem) :
  QImage_isNull img = false ->
  QRect_in_range (crop_rect b) ->
  let r := crop_rect b in
  let out := cropped_image_in can_allocate img b in
  ((0 < QRect_width r)%Z -> (0 < QRect_height r)%Z ->
   (can_allocate (QRect_width r) (QRect_height r) = true ->
    img_width out = QRect_width r /\
    img_height out = QRect_height r /\
    forall i j : Z,
      img_pixel out i j
        = if inside img (QRect_x r + i)%Z (QRect_y r + j)%Z
          then img_pixel img (QRect_x r + i)%Z (QRect_y r + j)%Z
          else 0%Z) /\
   (can_allocate (QRect_width r) (QRect_height r) = false -> out = QImage_null)) /\
  ((QRect_width r <= 0)%Z \/ (QRect_height r <= 0)%Z ->
   ~ (QRect_width r = 0%Z /\ QRect_height r = 0%Z) ->
   out = QImage_null) /\
  (QRect_width r = 0%Z -> QRect_height r = 0%Z ->
   out = if can_allocate (img_width img) (img_height img) then img else QImage_null) /\
  cropped_image_in (fun _ _ => true) img b = cropped_image img b.
Proof.
  intros Hn _ r out.
  assert (Eout : out = QImage_copy_in can_allocate img r) by reflexivity.
  rewrite Eout. unfold QImage_copy_in. rewrite Hn.
  split; [|split; [|split]].
  - intros Hw Hh.
    destruct (QRect_isNull r) eqn:E; [apply QRect_isNull_size in E; lia|].
    destruct (Z.leb_spec (QRect_width r) 0); [lia|].
    destruct (Z.leb_spec (QRect_height r) 0); [lia|]. cbn [orb].
    split; intros ->; [|reflexivity].
    simpl. repeat split; reflexivity.
  - intros Hle Hnz.
    destruct (QRect_isNull r) eqn:E; [apply QRect_isNull_size in E; contradiction|].
    destruct (Z.leb_spec (QRect_width r) 0); [reflexivity|].
    destruct (Z.leb_spec (QRect_height r) 0); [reflexivity|]. lia.
  - intros Hw Hh.
    rewrite (proj2 (QRect_isNull_size r) (conj Hw Hh)). reflexivity.
  - reflexivity.
Qed.

(** ** Loading *)

Section Loading.

Variable QImage_of_file : string -> QImage.

Lemma load_image_path (file_path open_dialog : string) (self : ImageProcessor) :
  file_path <> ""%string ->
  load_image QImage_of_file file_path open_dialog self
    = draw_image true
        (mkImageProcessor (image_width self) (image_height self)
           (Some (QImage_of_file file_path)) (Some (QImage_of_file file_path))
           (box self) (suggested_filename self) (message_label self)).
Proof.
  intros Hne. unfold load_image. apply String.eqb_neq in Hne. rewrite Hne.
  simpl. rewrite Hne. reflexivity.
Qed.

Lemma load_image_dialog (open_dialog : string) (self : ImageProcessor) :
  open_dialog <> ""%string ->
  load_image QImage_of_file "" open_dialog self
    = draw_image true
        (mkImageProcessor (image_width self) (image_height self)
           (Some (QImage_of_file open_dialog)) (Some (QImage_of_file open_dialog))
           (box self) (suggested_filename self) (message_label self)).
Proof.
  intros Hne. unfold load_image. apply String.eqb_neq in Hne. simpl.
  rewrite Hne. reflexivity.
Qed.

Lemma dropEvent_from_app (urls1 urls2 : list string) (open_dialog : nat -> string) :
  forall (i : nat) (self : ImageProcessor),
  dropEvent_from QImage_of_file i (urls1 ++ urls2) open_dialog self
    = dropEvent_from QImage_of_file (i + List.length urls1) urls2 open_dialog
        (dropEvent_from QImage_of_file i urls1 open_dialog self).
Proof.
  induction urls1 as [|u urls1 IH]; intros i self; simpl.
  - rewrite Nat.add_0_r. reflexivity.
  - rewrite IH. f_equal. lia.
Qed.

End Loading.

(** C10 (as amended).  When a drop provides several URLs, every URL is
    loaded in turn and each load replaces the previous one, so the last
    dropped URL wins: the image loaded at the end of the drop action is the
    one from the last URL of the list (given that it has a local path). *)
Theorem drop_loads_last_url
    (QImage_of_file : string -> QImage) (urls : list string) (last_url : string)
    (open_dialog : nat -> string) (self : ImageProcessor) :
  last_url <> ""%string ->
  image (dropEvent QImage_of_file (urls ++ [last_url]) open_dialog self)
    = Some (QImage_of_file last_url).
Proof.
  intros Hne. unfold dropEvent. rewrite dropEvent_from_app. simpl.
  rewrite (load_image_path QImage_of_file last_url _ _ Hne).
  destruct (draw_image_frame true
              (mkImageProcessor
                 (image_width (dropEvent_from QImage_of_file 0 urls open_dialog self))
                 (image_height (dropEvent_from QImage_of_file 0 urls open_dialog self))
                 (Some (QImage_of_file last_url)) (Some (QImage_of_file last_url))
                 (box (dropEvent_from QImage_of_file 0 urls open_dialog self))
                 (suggested_filename (dropEvent_from QImage_of_file 0 urls open_dialog self))
                 (message_label (dropEvent_from QImage_of_file 0 urls open_dialog self))))
    as (_ & _ & Hi & _).
  rewrite Hi. reflexivity.
Qed.

(** ** The centre-crop scenario *)

Lemma save_image_chosen
    (resample : QImage -> QSize -> Z -> Z -> Z) (save_dialog : string -> string)
    (write_ok : bool)
    (self : ImageProcessor) (img : QImage) (b : DraggableRectItem) (offered : string) :
  image self = Some img -> box self = Some b ->
  offered_filename (suggested_filename self) = Ok offered ->
  save_dialog offered <> ""%string ->
  exists name : string,
    Py.last (Py.split "/" (save_dialog offered)) = Ok name /\
    save_image resample save_dialog write_ok self
      = Ok (with_suggested name "Saved!" self,
            written_file resample write_ok (save_dialog offered) self img b).
Proof.
  intros Hi Hb Ho Hne.
  destruct (last_ok _ (split_not_nil "/" (save_dialog offered))) as [name Hlast].
  exists name. split; [exact Hlast|].
  unfold save_image. rewrite Hi, Hb, Ho. simpl.
  apply String.eqb_neq in Hne. rewrite Hne. simpl. rewrite Hlast. simpl.
  unfold with_suggested. rewrite Hi, Hb. reflexivity.
Qed.

(** C7 (as amended).  For a loaded 1024 x 1024 image with the "512 x 512"
    target selected and the box neither moved nor resized, saving writes a
    512 x 512 image.  It is scaled from the 532 x 532 region at (245, 245):
    the bounding rectangle of the box, which is the 512 x 512 box placed at
    (255, 255) extended by half the 20-unit pen width on every side. *)
Theorem save_centre_crop
    (QImage_of_file : string -> QImage)
    (resample : QImage -> QSize -> Z -> Z -> Z)
    (path : string) (save_dialog : string -> string) :
  path <> ""%string ->
  img_width (QImage_of_file path) = 1024%Z ->
  img_height (QImage_of_file path) = 1024%Z ->
  save_dialog "image_001.jpg"%string <> ""%string ->
  exists (self self' : ImageProcessor) (file : SavedFile),
    run QImage_of_file resample ImageProcessor_init
      [LoadClicked path; SizeSelected "512 x 512"] = Ok self /\
    box self = Some box_512_on_1024 /\
    crop_rect box_512_on_1024 = QRect_xywh 245 245 532 532 /\
    save_image resample save_dialog true self = Ok (self', Some file) /\
    saved_path file = save_dialog "image_001.jpg"%string /\
    saved_image file
      = QImage_scaled_keep resample
          (cropped_image (QImage_of_file path) box_512_on_1024) 512 512 /\
    img_width (saved_image file) = 512%Z /\
    img_height (saved_image file) = 512%Z /\
    img_width (cropped_image (QImage_of_file path) box_512_on_1024) = 532%Z /\
    img_height (cropped_image (QImage_of_file path) box_512_on_1024) = 532%Z /\
    forall i j : Z,
      (0 <= i < 532)%Z -> (0 <= j < 532)%Z ->
      img_pixel (cropped_image (QImage_of_file path) box_512_on_1024) i j
        = img_pixel (QImage_of_file path) (245 + i)%Z (245 + j)%Z.
Proof.
  intros Hpath Hw Hh Hsave.
  set (img := QImage_of_file path) in *.
  set (loaded :=
         mkImageProcessor 512 512 (Some img) (Some img)
           (box (draw_image true
                   (mkImageProcessor 1024 1024 (Some img) (Some img) None
                      "image_000.jpg" "")))
           "image_000.jpg" "").
  assert (Hrun : run QImage_of_file resample ImageProcessor_init
                   [LoadClicked path; SizeSelected "512 x 512"]
                 = Ok (draw_image true loaded)).
  { cbn [run step bind].
    rewrite (load_image_dialog QImage_of_file path _ Hpath).
    rewrite (set_image_size_target "512 x 512" 512%Z) by (simpl; auto).
    reflexivity. }
  assert (Hbox : box (draw_image true loaded) = Some box_512_on_1024).
  { rewrite (draw_image_box loaded img eq_refl).
    unfold QImage_rect. rewrite Hw, Hh. reflexivity. }
  assert (Hnull : QImage_isNull img = false).
  { unfold QImage_isNull. rewrite Hw, Hh. reflexivity. }
  assert (Hrect : crop_rect box_512_on_1024 = QRect_xywh 245 245 532 532)
    by (vm_compute; reflexivity).
  assert (Hcrop : cropped_image img box_512_on_1024
                  = mkQImage 532 532
                      (fun i j =>
                         if inside img (245 + i)%Z (245 + j)%Z
                         then img_pixel img (245 + i)%Z (245 + j)%Z
                         else 0%Z)).
  { rewrite cropped_image_copy, Hrect.
    rewrite copy_positive; [reflexivity | exact Hnull | reflexivity | reflexivity]. }
  assert (Himg : image (draw_image true loaded) = Some img).
  { destruct (draw_image_frame true loaded) as (_ & _ & Hi & _). rewrite Hi. reflexivity. }
  assert (Hname : offered_filename (suggested_filename (draw_image true loaded))
                  = Ok "image_001.jpg"%string).
  { destruct (draw_image_frame true loaded) as (_ & _ & _ & Hs). rewrite Hs. reflexivity. }
  destruct (save_image_chosen resample save_dialog true (draw_image true loaded) img
              box_512_on_1024 _ Himg Hbox Hname Hsave) as (name & _ & Hsaved).
  destruct (draw_image_frame true loaded) as (Hiw & Hih & _ & _).
  unfold written_file, export_image in Hsaved.
  rewrite Hiw, Hih in Hsaved. simpl image_width in Hsaved. simpl image_height in Hsaved.
  assert (Hfull : QImage_isNull
                    (QImage_scaled_keep resample
                       (cropped_image img box_512_on_1024) 512 512) = false)
    by (rewrite Hcrop; reflexivity).
  rewrite Hfull in Hsaved. cbn [andb negb] in Hsaved.
  eexists; eexists; eexists.
  split; [exact Hrun|]. split; [exact Hbox|]. split; [exact Hrect|].
  split; [exact Hsaved|]. split; [reflexivity|]. split; [reflexivity|].
  rewrite Hcrop. split; [reflexivity|]. split; [reflexivity|].
  split; [reflexivity|]. split; [reflexivity|].
  intros i j Hi Hj. cbn [img_pixel].
  unfold inside. rewrite Hw, Hh.
  destruct (Z.leb_spec 0 (245 + i)); [|lia].
  destruct (Z.ltb_spec (245 + i) 1024); [|lia].
  destruct (Z.leb_spec 0 (245 + j)); [|lia].
  destruct (Z.ltb_spec (245 + j) 1024); [|lia]. reflexivity.
Qed.

(** * Concrete sessions *)

(** C1, counterexample.  On the box that [draw_image] creates for a
    1025 x 1025 image (rectangle and position both at the origin, side
    1024) a resize with the pointer at (1034, 1029) gives the side 1054,
    not the 1034 of [side + max(dx, dy)]. *)
Lemma resize_side_counterexample :
  exists (self : ImageProcessor) (b : DraggableRectItem),
    example_run [LoadClicked "/pics/odd.png"; HandleSelected true] = Ok self /\
    box self = Some b /\
    rect b = mkQRectF 0 0 1024 1024 /\ pos b = mkQPointF 0 0 /\
    w (rect (ResizeHandle_mouseMoveEvent (mkQPointF 1034 1029) b)) == 1054 /\
    resizeFromCorner_spec_side 0 0 1024 1034 1029 == 1034 /\
    ~ w (rect (ResizeHandle_mouseMoveEvent (mkQPointF 1034 1029) b))
      == resizeFromCorner_spec_side 0 0 1024 1034 1029.
Proof.
  eexists; eexists. split; [reflexivity|]. split; [reflexivity|].
  split; [reflexivity|]. split; [reflexivity|].
  split; [reflexivity|]. split; [reflexivity|].
  vm_compute. intros H. discriminate H.
Qed.

Lemma resize_side_half_handle_witness :
  w (rect (ResizeHandle_mouseMoveEvent (mkQPointF 110 105) example_box))
    == 100 + (Py.max (110 - scene_x example_box - 100)
                     (105 - scene_y example_box - 100) + 20) /\
  h (rect (ResizeHandle_mouseMoveEvent (mkQPointF 110 105) example_box))
    == 100 + (Py.max (110 - scene_x example_box - 100)
                     (105 - scene_y example_box - 100) + 20).
Proof.
  apply (resize_side_half_handle (mkQPointF 110 105) example_box 100);
    reflexivity.
Defined.

Lemma square_after_every_resize_witness :
  square (ResizeHandle_mouseMoveEvent (mkQPointF 30 20) example_box) /\
  exists (self : ImageProcessor) (b : DraggableRectItem),
    example_run [LoadClicked "/pics/a.png"; HandleSelected true;
                 HandleDragged (mkQPointF 1500 900);
                 BoxDragged 10 (-3);
                 HandleDragged (mkQPointF 12 7)] = Ok self /\
    box self = Some b /\ square b.
Proof.
  destruct square_after_every_resize as [Hstep Hrun]. split.
  - apply Hstep. reflexivity.
  - eexists; eexists. split; [reflexivity|]. split; [reflexivity|].
    eapply (Hrun example_files example_resample
              [LoadClicked "/pics/a.png"; HandleSelected true;
               HandleDragged (mkQPointF 1500 900);
               BoxDragged 10 (-3);
               HandleDragged (mkQPointF 12 7)]); reflexivity.
Defined.

(** C3, counterexample.  After a successful save under the name
    "cat.jpg", chosen by the user, the suggested name is "cat.jpg": it was
    "photo.jpg", which does not match the pattern, and is not left
    unchanged; and from "image_001.jpg" it does not become
    "image_002.jpg". *)
Lemma next_suggested_filename_counterexample :
  suggested_filename (saved_as "photo.jpg") = "photo.jpg"%string /\
  Re.match_ filename_pattern "photo.jpg" = false /\
  suggested_filename (saved_as "image_001.jpg") = "image_001.jpg"%string /\
  exists (self1 self2 : ImageProcessor) (file1 file2 : SavedFile),
    save_image example_resample (always "/out/cat.jpg") true (saved_as "photo.jpg")
      = Ok (self1, Some file1) /\
    suggested_filename self1 = "cat.jpg"%string /\
    suggested_filename self1 <> suggested_filename (saved_as "photo.jpg") /\
    save_image example_resample (always "/out/cat.jpg") true (saved_as "image_001.jpg")
      = Ok (self2, Some file2) /\
    suggested_filename self2 <> "image_002.jpg"%string.
Proof.
  split; [reflexivity|]. split; [reflexivity|]. split; [reflexivity|].
  eexists; eexists; eexists; eexists.
  split; [reflexivity|]. split; [reflexivity|].
  split; [intros H; discriminate H|].
  split; [reflexivity|]. intros H; discriminate H.
Qed.

Lemma next_suggested_filename_witness :
  (exists (self' : ImageProcessor) (file : SavedFile),
      save_image example_resample (in_folder "/out") true (saved_as "image_001.jpg")
        = Ok (self', Some file) /\
      suggested_filename self' = "image_002.jpg"%string) /\
  (exists (self' : ImageProcessor) (file : SavedFile),
      save_image example_resample (in_folder "/out") true (saved_as "photo.jpg")
        = Ok (self', Some file) /\
      suggested_filename self' = "photo.jpg"%string) /\
  (exists (self' : ImageProcessor) (file : SavedFile),
      save_image example_resample (always "/out/cat.jpg") true (saved_as "photo.jpg")
        = Ok (self', Some file) /\
      Py.last (Py.split "/" (saved_path file)) = Ok (suggested_filename self') /\
      saved_path file = "/out/cat.jpg"%string).
Proof.
  split; [|split].
  - destruct (next_suggested_filename example_resample (in_folder "/out")
                (saved_as "image_001.jpg")) as [Hnext Hex].
    edestruct Hex as (self' & file & Hsave);
      [reflexivity | reflexivity | reflexivity | intros H; discriminate H
      | reflexivity |].
    exists self', file. split; [exact Hsave|].
    destruct (Hnext true self' file Hsave) as (_ & Hnum & _ & _).
    destruct (Hnum "image"%string "0"%char "0"%char "1"%char
                eq_refl eq_refl eq_refl eq_refl eq_refl) as (Hname & _ & _).
    + split; [intros H; discriminate H | reflexivity].
    + exact Hname.
  - destruct (next_suggested_filename example_resample (in_folder "/out")
                (saved_as "photo.jpg")) as [Hnext Hex].
    edestruct Hex as (self' & file & Hsave);
      [reflexivity | reflexivity | reflexivity | intros H; discriminate H
      | reflexivity |].
    exists self', file. split; [exact Hsave|].
    destruct (Hnext true self' file Hsave) as (_ & _ & Hplain & _).
    apply Hplain; [reflexivity|].
    split; [intros H; discriminate H | reflexivity].
  - destruct (next_suggested_filename example_resample (always "/out/cat.jpg")
                (saved_as "photo.jpg")) as [Hnext Hex].
    edestruct Hex as (self' & file & Hsave);
      [reflexivity | reflexivity | reflexivity | intros H; discriminate H
      | reflexivity |].
    exists self', file. split; [exact Hsave|].
    destruct (Hnext true self' file Hsave) as ((offered & _ & Hpath & Hlast) & _).
    split; [exact Hlast | exact Hpath].
Defined.

(** C4, counterexample.  With an image loaded and the suggested name
    "image_000.jpg", a save attempt whose dialog is cancelled leaves the
    suggested name "image_001.jpg". *)
Lemma cancelled_save_counterexample :
  exists self self' : ImageProcessor,
    example_run [LoadClicked "/pics/a.png"] = Ok self /\
    suggested_filename self = "image_000.jpg"%string /\
    save_image example_resample (always "") true self = Ok (self', None) /\
    suggested_filename self' = "image_001.jpg"%string /\
    suggested_filename self' <> suggested_filename self.
Proof.
  eexists; eexists. split; [reflexivity|]. split; [reflexivity|].
  split; [reflexivity|]. split; [reflexivity|]. intros H; discriminate H.
Qed.

Lemma cancelled_save_keeps_offered_name_witness :
  save_image example_resample (always "") true ImageProcessor_init
    = Ok (ImageProcessor_init, None) /\
  save_image example_resample (always "") true (saved_as "photo.jpg")
    = Ok (saved_as "photo.jpg", None) /\
  save_image example_resample (always "") true (saved_as "image_001.jpg")
    = Ok (with_suggested "image_002.jpg" "Saved!" (saved_as "image_001.jpg"), None).
Proof.
  split; [|split].
  - apply (cancelled_save_keeps_offered_name example_resample (always "") true
             ImageProcessor_init (fun _ => eq_refl)).
    left. reflexivity.
  - edestruct (cancelled_save_keeps_offered_name example_resample (always "") true
                 (saved_as "photo.jpg") (fun _ => eq_refl)) as (_ & H).
    edestruct H as (Hplain & _); [reflexivity | reflexivity |].
    apply Hplain. reflexivity.
  - edestruct (cancelled_save_keeps_offered_name example_resample (always "") true
                 (saved_as "image_001.jpg") (fun _ => eq_refl)) as (_ & H).
    edestruct H as (_ & _ & Hnum); [reflexivity | reflexivity |].
    apply (Hnum "image"%string "0"%char "0"%char "1"%char); reflexivity.
Defined.

Lemma selected_box_centred_witness :
  exists (self' : ImageProcessor) (b : DraggableRectItem),
    set_image_size "512 x 512" (saved_as "photo.jpg") = Ok self' /\
    box self' = Some b /\
    w (rect b) == 512 /\ h (rect b) == 512 /\ xp (rect b) == 0 /\ yp (rect b) == 0 /\
    Qabs (ptf_x (pos b) - (inject_Z 1024 / 2 - inject_Z 512 / 2)) <= 1 /\
    Qabs (ptf_y (pos b) - (inject_Z 1024 / 2 - inject_Z 512 / 2)) <= 1.
Proof.
  apply (selected_box_centred "512 x 512" 512 (saved_as "photo.jpg")
           (example_image 1024 1024)).
  - reflexivity.
  - left. reflexivity.
Defined.

(** C6, counterexample.  For the 100 x 100 picture under the default
    1024 box, the region asked for is 1044 x 1044 at (-473, -473) and the
    crop is a 1044 x 1044 image: it has the full requested size, far more
    than the 100 x 100 pixels available, and its pixel (0, 0), which lies
    outside the picture, is the padding value 0. *)
Lemma crop_counterexample :
  exists (self : ImageProcessor) (img : QImage) (b : DraggableRectItem),
    example_run [LoadClicked "/pics/small.png"] = Ok self /\
    image self = Some img /\ box self = Some b /\
    img_width img = 100%Z /\ img_height img = 100%Z /\
    crop_rect b = QRect_xywh (-473) (-473) 1044 1044 /\
    img_width (cropped_image img b) = 1044%Z /\
    img_height (cropped_image img b) = 1044%Z /\
    img_pixel (cropped_image img b) 0 0 = 0%Z /\
    img_pixel (cropped_image img b) 473 473 = img_pixel img 0 0.
Proof.
  eexists; eexists; eexists.
  split; [reflexivity|]. split; [reflexivity|]. split; [reflexivity|].
  repeat split; vm_compute; reflexivity.
Qed.

Lemma crop_has_requested_size_witness :
  (img_width (cropped_image_in (fun _ _ => true) (example_image 100 100)
                box_512_on_1024) = 532%Z /\
   img_height (cropped_image_in (fun _ _ => true) (example_image 100 100)
                 box_512_on_1024) = 532%Z) /\
  cropped_image_in (fun _ _ => false) (example_image 100 100) box_512_on_1024
    = QImage_null /\
  cropped_image_in (fun _ _ => true) (example_image 100 100)
    (setPen 20 (DraggableRectItem_init (mkQRectF 0 0 (-30) 100))) = QImage_null /\
  cropped_image_in (fun _ _ => true) (example_image 100 100)
    (setPen 20 (DraggableRectItem_init (mkQRectF 0 0 (-20) (-20))))
    = example_image 100 100.
Proof.
  split; [|split; [|split]].
  - destruct (crop_has_requested_size (fun _ _ => true) (example_image 100 100)
                box_512_on_1024 eq_refl)
      as (Hpos & _ & _).
    + vm_compute. repeat split; try (intros H; discriminate H).
    + destruct Hpos as ((Hw & Hh & _) & _); [reflexivity | reflexivity | reflexivity |].
      split; [rewrite Hw | rewrite Hh]; reflexivity.
  - destruct (crop_has_requested_size (fun _ _ => false) (example_image 100 100)
                box_512_on_1024 eq_refl)
      as (Hpos & _ & _).
    + vm_compute. repeat split; try (intros H; discriminate H).
    + destruct Hpos as (_ & Hfail); [reflexivity | reflexivity |].
      apply Hfail. reflexivity.
  - destruct (crop_has_requested_size (fun _ _ => true) (example_image 100 100)
                (setPen 20 (DraggableRectItem_init (mkQRectF 0 0 (-30) 100))) eq_refl)
      as (_ & Hneg & _).
    + vm_compute. repeat split; try (intros H; discriminate H).
    + apply Hneg.
      * left. vm_compute. intros H; discriminate H.
      * vm_compute. intros [H _]. discriminate H.
  - destruct (crop_has_requested_size (fun _ _ => true) (example_image 100 100)
                (setPen 20 (DraggableRectItem_init (mkQRectF 0 0 (-20) (-20)))) eq_refl)
      as (_ & _ & Hnull & _).
    + vm_compute. repeat split; try (intros H; discriminate H).
    + apply Hnull; reflexivity.
Defined.

(** C7, counterexample.  In the scenario the region cropped is not the
    rectangle at (256, 256) of width and height 512: it is the 532 x 532
    rectangle at (245, 245), so the first pixel of the crop is the picture's
    pixel (245, 245) and not its pixel (256, 256). *)
Lemma save_centre_crop_counterexample :
  exists (self self' : ImageProcessor) (img : QImage) (b : DraggableRectItem)
         (file : SavedFile),
    example_run [LoadClicked "/pics/a.png"; SizeSelected "512 x 512"] = Ok self /\
    image self = Some img /\ box self = Some b /\
    img_width img = 1024%Z /\ img_height img = 1024%Z /\
    save_image example_resample (in_folder "/out") true self = Ok (self', Some file) /\
    img_width (saved_image file) = 512%Z /\ img_height (saved_image file) = 512%Z /\
    saved_image file = QImage_scaled_keep example_resample (cropped_image img b) 512 512 /\
    crop_rect b <> QRect_xywh 256 256 512 512 /\
    img_width (cropped_image img b) = 532%Z /\
    img_pixel (cropped_image img b) 0 0 = img_pixel img 245 245 /\
    img_pixel (cropped_image img b) 0 0 <> img_pixel img 256 256.
Proof.
  eexists; eexists; eexists; eexists; eexists.
  split; [reflexivity|]. split; [reflexivity|]. split; [reflexivity|].
  split; [reflexivity|]. split; [reflexivity|]. split; [reflexivity|].
  split; [reflexivity|]. split; [reflexivity|]. split; [reflexivity|].
  split; [vm_compute; intros H; discriminate H|].
  split; [reflexivity|]. split; [reflexivity|].
  vm_compute. intros H; discriminate H.
Qed.

Lemma save_centre_crop_witness :
  exists (self self' : ImageProcessor) (file : SavedFile),
    example_run [LoadClicked "/pics/a.png"; SizeSelected "512 x 512"] = Ok self /\
    box self = Some box_512_on_1024 /\
    save_image example_resample (in_folder "/out") true self = Ok (self', Some file) /\
    saved_path file = "/out/image_001.jpg"%string /\
    img_width (saved_image file) = 512%Z /\
    img_height (saved_image file) = 512%Z /\
    img_pixel (cropped_image (example_files "/pics/a.png") box_512_on_1024) 1 0
      = img_pixel (example_files "/pics/a.png") 246 245.
Proof.
  destruct (save_centre_crop example_files example_resample "/pics/a.png"
              (in_folder "/out"))
    as (self & self' & file & Hrun & Hbox & _ & Hsave & Hpath & _ & Hw & Hh & _ & _ & Hpx).
  - intros H; discriminate H.
  - reflexivity.
  - reflexivity.
  - intros H; discriminate H.
  - exists self, self', file.
    split; [exact Hrun|]. split; [exact Hbox|]. split; [exact Hsave|].
    split; [exact Hpath|]. split; [exact Hw|]. split; [exact Hh|].
    apply (Hpx 1%Z 0%Z); lia.
Defined.

Lemma save_without_image_or_box_witness :
  save_image example_resample (in_folder "/out") true ImageProcessor_init
    = Ok (ImageProcessor_init, None) /\
  step example_files example_resample ImageProcessor_init
    (SaveClicked (in_folder "/out") true) = Ok ImageProcessor_init.
Proof.
  apply (save_without_image_or_box example_files example_resample (in_folder "/out")
           true ImageProcessor_init).
  left. reflexivity.
Defined.

Lemma set_image_size_enumerated_witness :
  set_image_size "256 x 256" ImageProcessor_init
    = Raise (ValueError "Invalid size: 256 x 256") /\
  exists self' : ImageProcessor,
    set_image_size "2048 x 2048" ImageProcessor_init = Ok self' /\
    image_width self' = 2048%Z /\ image_height self' = 2048%Z.
Proof.
  destruct (set_image_size_enumerated ImageProcessor_init) as [Hbad Hgood]. split.
  - apply (Hbad "256 x 256"%string); intros H; discriminate H.
  - apply (Hgood "2048 x 2048"%string 2048%Z). right. right. left. reflexivity.
Defined.

(** C10, counterexample.  Dropping the small picture first and the large
    one second leaves the large one loaded: the image at the end of the
    drop is not the one from the first URL. *)
Lemma drop_counterexample :
  exists img : QImage,
    image (dropEvent example_files ["/pics/small.png"; "/pics/a.png"]%string
             (fun _ => ""%string) ImageProcessor_init) = Some img /\
    img_width img = 1024%Z /\
    img_width (example_files "/pics/small.png") = 100%Z /\
    Some img <> Some (example_files "/pics/small.png").
Proof.
  eexists. split; [reflexivity|]. split; [reflexivity|]. split; [reflexivity|].
  intros H.
  apply (f_equal (fun o => match o with Some i => img_width i | None => 0%Z end)) in H.
  vm_compute in H. discriminate H.
Qed.

Lemma drop_loads_last_url_witness :
  image (dropEvent example_files
           (["/pics/small.png"%string] ++ ["/pics/odd.png"%string])%list
           (fun _ => ""%string) ImageProcessor_init)
    = Some (example_files "/pics/odd.png").
Proof.
  apply (drop_loads_last_url example_files ["/pics/small.png"%string]
           "/pics/odd.png" (fun _ => ""%string) ImageProcessor_init).
  intros H; discriminate H.
Defined.

(** * Further properties *)

(** ** Resizing *)

Lemma resize_frame (p : QPointF) (b : DraggableRectItem) :
  pos (ResizeHandle_mouseMoveEvent p b) = pos b /\
  xp (rect (ResizeHandle_mouseMoveEvent p b)) = xp (rect b) /\
  yp (rect (ResizeHandle_mouseMoveEvent p b)) = yp (rect b) /\
  pen_width (ResizeHandle_mouseMoveEvent p b) = pen_width b /\
  handle_selected (resize_handle (ResizeHandle_mouseMoveEvent p b))
    = handle_selected (resize_handle b).
Proof.
  unfold ResizeHandle_mouseMoveEvent.
  destruct (handle_selected (resize_handle b)) eqn:E; simpl; rewrite ?E;
    repeat split; reflexivity.
Qed.

(** *** Whole coordinates

    On whole numbers inside the range of [int] the additions and
    subtractions of lines 54-58 are exact in binary floating point too. *)

Lemma Py_max_inject (a b : Z) :
  Py.max (inject_Z a) (inject_Z b) == inject_Z (Z.max a b).
Proof.
  destruct (Py_max_cases (inject_Z a) (inject_Z b)) as [[H ->] | [H ->]].
  - rewrite <- Zle_Qle in H. rewrite Z.max_l by exact H. reflexivity.
  - rewrite <- Zlt_Qlt in H. rewrite Z.max_r by lia. reflexivity.
Qed.

Lemma resize_whole (p : QPointF) (b : DraggableRectItem) (x y s px py : Z) :
  handle_selected (resize_handle b) = true ->
  standard_handle b ->
  xp (rect b) == inject_Z x -> yp (rect b) == inject_Z y ->
  w (rect b) == inject_Z s -> h (rect b) == inject_Z s ->
  ptf_x p == inject_Z px -> ptf_y p == inject_Z py ->
  w (rect (ResizeHandle_mouseMoveEvent p b)) == inject_Z (Z.max (px - x) (py - y) + 20) /\
  h (rect (ResizeHandle_mouseMoveEvent p b)) == inject_Z (Z.max (px - x) (py - y) + 20).
Proof.
  intros Hsel Hh Hx Hy Hw Hht Hpx Hpy.
  destruct (resize_width p b Hsel) as [-> ->].
  unfold standard_handle in Hh. rewrite Hh. simpl.
  set (half := 40 / 2). assert (Hhalf : half == 20) by reflexivity.
  assert (E : Py.max (ptf_x p - xp (rect b) - w (rect b) + half)
                     (ptf_y p - yp (rect b) - h (rect b) + half)
              == inject_Z (Z.max (px - x) (py - y) + 20 - s)).
  { replace (Z.max (px - x) (py - y) + 20 - s)%Z
      with (Z.max (px - x - s + 20) (py - y - s + 20)) by lia.
    rewrite <- Py_max_inject. apply Py_max_compat.
    - unfold Z.sub. rewrite !inject_Z_plus, !inject_Z_opp.
      change (inject_Z 20) with 20. lra.
    - unfold Z.sub. rewrite !inject_Z_plus, !inject_Z_opp.
      change (inject_Z 20) with 20. lra. }
  assert (F : inject_Z (Z.max (px - x) (py - y) + 20)
              == inject_Z (Z.max (px - x) (py - y) + 20 - s) + inject_Z s).
  { rewrite <- inject_Z_plus. apply inject_Z_injective. lia. }
  split; lra.
Qed.

(** X3.  There is no minimum size.  For a square box whose rectangle has
    whole coordinates and side, and every whole number [s], zero and
    negative numbers included, a resize with the pointer 20 units inside
    the point [(x + s, y + s)] gives the box the side [s], [(x, y)] being
    the origin of the rectangle; all the numbers are values of [int]. *)
Theorem resize_reaches_any_side (s x y side : Z) (b : DraggableRectItem) :
  handle_selected (resize_handle b) = true ->
  standard_handle b ->
  xp (rect b) == inject_Z x -> yp (rect b) == inject_Z y ->
  w (rect b) == inject_Z side -> h (rect b) == inject_Z side ->
  int_range s -> int_range x -> int_range y -> int_range side ->
  let p := mkQPointF (inject_Z (x + s - 20)) (inject_Z (y + s - 20)) in
  w (rect (ResizeHandle_mouseMoveEvent p b)) == inject_Z s /\
  h (rect (ResizeHandle_mouseMoveEvent p b)) == inject_Z s.
Proof.
  intros Hsel Hh Hx Hy Hw Hht _ _ _ _ p.
  destruct (resize_whole p b x y side (x + s - 20) (y + s - 20) Hsel Hh Hx Hy Hw Hht)
    as [Ew Eh]; [reflexivity | reflexivity |].
  replace (Z.max (x + s - 20 - x) (y + s - 20 - y) + 20)%Z with s in Ew, Eh by lia.
  split; assumption.
Qed.

Lemma resize_reaches_any_side_witness :
  w (rect (ResizeHandle_mouseMoveEvent
             (mkQPointF (inject_Z (0 + (-7) - 20)) (inject_Z (0 + (-7) - 20)))
             example_box)) == inject_Z (-7) /\
  h (rect (ResizeHandle_mouseMoveEvent
             (mkQPointF (inject_Z (0 + (-7) - 20)) (inject_Z (0 + (-7) - 20)))
             example_box)) == inject_Z (-7).
Proof.
  apply (resize_reaches_any_side (-7) 0 0 100 example_box);
    try reflexivity; unfold int_range; lia.
Defined.

(** ** Characters of the strings the code builds *)

Local Open Scope string_scope.

Lemma all_chars_app (p : ascii -> bool) (a b : string) :
  all_chars p (a ++ b) = all_chars p a && all_chars p b.
Proof.
  induction a as [|c a IH]; simpl; [reflexivity|].
  rewrite IH. apply andb_assoc.
Qed.

Lemma split_all (p : ascii -> bool) (sep : ascii) (s : string) :
  all_chars p s = true ->
  forall x, In x (Py.split sep s) -> all_chars p x = true.
Proof.
  induction s as [|c s IH]; simpl; intros Hs x Hx.
  - destruct Hx as [<- | []]. reflexivity.
  - apply andb_true_iff in Hs as [Hc Hs]. specialize (IH Hs).
    destruct (Ascii.eqb c sep).
    + destruct Hx as [<- | Hx]; [reflexivity | apply IH, Hx].
    + destruct (Py.split sep s) as [|w ws].
      * destruct Hx as [<- | []]. simpl. rewrite Hc. reflexivity.
      * destruct Hx as [<- | Hx].
        -- simpl. rewrite Hc. apply IH. left. reflexivity.
        -- apply IH. right. exact Hx.
Qed.

Lemma split_free (sep : ascii) (s : string) :
  forall x, In x (Py.split sep s) ->
  all_chars (fun c => negb (Ascii.eqb c sep)) x = true.
Proof.
  induction s as [|c s IH]; simpl; intros x Hx.
  - destruct Hx as [<- | []]. reflexivity.
  - destruct (Ascii.eqb c sep) eqn:E.
    + destruct Hx as [<- | Hx]; [reflexivity | apply IH, Hx].
    + destruct (Py.split sep s) as [|w ws].
      * destruct Hx as [<- | []]. simpl. rewrite E. reflexivity.
      * destruct Hx as [<- | Hx].
        -- simpl. rewrite E. apply IH. left. reflexivity.
        -- apply IH. right. exact Hx.
Qed.

Lemma index_In {A : Type} (l : list A) (i : nat) (a : A) :
  Py.index l i = Ok a -> In a l.
Proof.
  unfold Py.index. destruct (nth_error l i) eqn:E; intros H; [|discriminate H].
  injection H as <-. eapply nth_error_In, E.
Qed.

Lemma last_In {A : Type} (l : list A) (a : A) : Py.last l = Ok a -> In a l.
Proof.
  induction l as [|x l IH]; simpl; intros H; [discriminate H|].
  destruct l as [|y l'].
  - injection H as <-. left. reflexivity.
  - right. apply IH, H.
Qed.

Lemma zeros_chars (p : ascii -> bool) (n : nat) :
  p "0"%char = true -> all_chars p (Py.zeros n) = true.
Proof.
  intros H0. induction n as [|n IH]; simpl; [reflexivity|].
  rewrite H0, IH. reflexivity.
Qed.

Lemma zfill_chars (p : ascii -> bool) (s : string) (n : nat) :
  p "0"%char = true -> all_chars p s = true -> all_chars p (Py.zfill s n) = true.
Proof.
  intros H0 Hs. unfold Py.zfill.
  generalize (zeros_chars p (n - String.length s) H0).
  generalize (Py.zeros (n - String.length s)). intros pad Hpad.
  destruct s as [|c s']; [rewrite all_chars_app, Hpad; reflexivity|].
  simpl in Hs. apply andb_true_iff in Hs as [Hc Hs].
  destruct c as [[] [] [] [] [] [] [] []];
    cbn [all_chars]; rewrite ?all_chars_app; cbn [all_chars];
    rewrite ?Hpad, ?Hc, ?Hs; reflexivity.
Qed.

Lemma uint_chars (p : ascii -> bool) (u : Decimal.uint) :
  (forall c, In c decimal_digits -> p c = true) ->
  all_chars p (NilEmpty.string_of_uint u) = true.
Proof.
  intros Hd. induction u; simpl; try reflexivity;
    rewrite IHu, Hd; try reflexivity; simpl; tauto.
Qed.

Lemma decimal_chars (p : ascii -> bool) (n : Z) :
  (forall c, In c decimal_digits -> p c = true) -> p "-"%char = true ->
  all_chars p (Py.decimal n) = true.
Proof.
  intros Hd Hm. unfold Py.decimal, NilZero.string_of_int, NilZero.string_of_uint.
  assert (H0 : p "0"%char = true) by (apply Hd; simpl; tauto).
  destruct (Z.to_int n) as [u | u].
  - destruct u; try (apply uint_chars, Hd). simpl. rewrite H0. reflexivity.
  - simpl. rewrite Hm.
    destruct u; try (apply uint_chars, Hd). simpl. rewrite H0. reflexivity.
Qed.

Lemma str_chars (p : ascii -> bool) (n : Z) (text : string) :
  (forall c, In c decimal_digits -> p c = true) -> p "-"%char = true ->
  Py.str n = Ok text -> all_chars p text = true.
Proof.
  intros Hd Hm. unfold Py.str.
  destruct (Py.max_str_digits <? _)%Z; intros H; [discriminate H|].
  injection H as <-. apply decimal_chars; assumption.
Qed.

Lemma offered_chars (p : ascii -> bool) (name offered : string) :
  (forall c, In c decimal_digits -> p c = true) -> p "-"%char = true ->
  p "_"%char = true -> p "."%char = true ->
  p "j"%char = true -> p "p"%char = true -> p "g"%char = true ->
  all_chars p name = true ->
  offered_filename name = Ok offered -> all_chars p offered = true.
Proof.
  intros Hd Hm Hu Hdot Hj Hp Hg Hname. unfold offered_filename.
  destruct (Re.match_ filename_pattern name);
    [|intros H; injection H as <-; exact Hname].
  unfold incremented_filename.
  destruct (Py.index (Py.split "_" name) 0) as [stem|e] eqn:Es; cbn [bind];
    [|intros H; discriminate H].
  destruct (Py.index (Py.split "_" name) 1) as [rest|e]; cbn [bind];
    [|intros H; discriminate H].
  destruct (Py.index (Py.split "." rest) 0) as [digits|e]; cbn [bind];
    [|intros H; discriminate H].
  destruct (Py.int digits) as [n|e]; cbn [bind]; [|intros H; discriminate H].
  destruct (Py.str (n + 1)) as [text|e] eqn:Et; cbn [bind]; intros H;
    [|discriminate H].
  injection H as <-.
  rewrite all_chars_app.
  rewrite (split_all p "_" name Hname stem (index_In _ _ _ Es)).
  change ("_" ++ Py.zfill text 3 ++ ".jpg")
    with (String "_" (Py.zfill text 3 ++ ".jpg")).
  cbn [all_chars]. rewrite all_chars_app.
  rewrite zfill_chars;
    [| apply Hd; simpl; tauto | apply (str_chars p (n + 1)); assumption].
  simpl. rewrite Hu, Hdot, Hj, Hp, Hg. reflexivity.
Qed.

Lemma offered_no_slash (name offered : string) :
  no_slash name = true -> offered_filename name = Ok offered ->
  no_slash offered = true.
Proof.
  unfold no_slash. apply offered_chars; try reflexivity.
  intros c Hc. simpl in Hc.
  repeat (destruct Hc as [<- | Hc]; [reflexivity|]). destruct Hc.
Qed.

Lemma basename_no_slash (path name : string) :
  Py.last (Py.split "/" path) = Ok name -> no_slash name = true.
Proof. intros H. apply (split_free "/" path), last_In, H. Qed.

(** ** What a session keeps *)

Local Open Scope Q_scope.

Ltac split_shape :=
  unfold session_shape; split; [|split; [|split; [|split; [|split]]]].

Lemma init_shape : session_shape ImageProcessor_init.
Proof.
  split_shape; simpl; try tauto; try reflexivity.
  intros b Hb. discriminate Hb.
Qed.

Lemma fresh_box_session (img : QImage) (side : Z) : session_box (fresh_box img side).
Proof.
  unfold session_box, fresh_box, standard_handle, square. simpl.
  repeat split; reflexivity.
Qed.

Lemma draw_image_fresh (self : ImageProcessor) (img : QImage) :
  image self = Some img -> image_height self = image_width self ->
  box (draw_image true self) = Some (fresh_box img (image_width self)).
Proof.
  intros Hi Hh. rewrite (draw_image_box self img Hi), Hh. reflexivity.
Qed.

Lemma draw_image_others (d : bool) (self : ImageProcessor) :
  image_original (draw_image d self) = image_original self /\
  message_label (draw_image d self) = message_label self.
Proof.
  unfold draw_image. destruct (image self); [destruct d|]; split; reflexivity.
Qed.

(** [draw_image] on a window whose fields other than the box are in
    order. *)
Lemma draw_image_shape (self : ImageProcessor) :
  (image self = None -> box self = None) ->
  image_original self = image self ->
  In (image_width self) [512; 1024; 2048]%Z ->
  image_height self = image_width self ->
  no_slash (suggested_filename self) = true ->
  session_shape (draw_image true self).
Proof.
  intros Hnone Ho Hw Hh Hs.
  destruct (draw_image_frame true self) as (Ew & Eh & Ei & Es).
  destruct (draw_image_others true self) as (Eo & _).
  unfold session_shape. rewrite Ew, Eh, Ei, Es, Eo.
  destruct (image self) as [img|] eqn:Hi.
  - rewrite (draw_image_fresh self img Hi Hh).
    split; [|split; [|split; [|split; [|split]]]]; try assumption.
    + split; intros H; discriminate H.
    + intros b Hb. injection Hb as <-. apply fresh_box_session.
  - unfold draw_image. rewrite Hi, (Hnone eq_refl).
    split; [|split; [|split; [|split; [|split]]]]; try assumption.
    + tauto.
    + intros b Hb. discriminate Hb.
Qed.

Lemma set_image_size_shape (size : string) (self self' : ImageProcessor) :
  session_shape self -> set_image_size size self = Ok self' -> session_shape self'.
Proof.
  intros (Hib & Ho & Hw & Hh & Hs & Hb). unfold set_image_size.
  destruct (String.eqb size "512 x 512");
    [|destruct (String.eqb size "1024 x 1024");
      [|destruct (String.eqb size "2048 x 2048")]];
    cbn [bind]; intros H; try discriminate H; injection H as <-;
    apply draw_image_shape; simpl; try assumption; try reflexivity;
    try tauto; apply Hib.
Qed.

Lemma on_box_shape (f : DraggableRectItem -> DraggableRectItem)
    (self : ImageProcessor) :
  (forall b, session_box b -> session_box (f b)) ->
  session_shape self -> session_shape (on_box f self).
Proof.
  intros Hf (Hib & Ho & Hw & Hh & Hs & Hb). unfold on_box.
  destruct (box self) as [b|] eqn:Eb.
  - split_shape; simpl; try assumption.
    + split; [intros Hi; apply Hib in Hi; discriminate Hi | intros H; discriminate H].
    + intros b' Hb'. injection Hb' as <-. apply Hf, Hb. reflexivity.
  - split_shape; rewrite ?Eb; try assumption.
Qed.

Lemma resize_session_box (p : QPointF) (b : DraggableRectItem) :
  session_box b -> session_box (ResizeHandle_mouseMoveEvent p b).
Proof.
  intros (Hx & Hy & Hp & Hh & Hsq).
  destruct (resize_frame p b) as (_ & Ex & Ey & Ep & _).
  unfold session_box. rewrite Ex, Ey, Ep.
  repeat split; try assumption; [apply resize_standard, Hh | apply resize_square, Hsq].
Qed.

Section SessionShape.

Variable QImage_of_file : string -> QImage.
Variable resample : QImage -> QSize -> Z -> Z -> Z.

Lemma load_image_shape (file_path open_dialog : string) (self : ImageProcessor) :
  session_shape self ->
  session_shape (load_image QImage_of_file file_path open_dialog self).
Proof.
  intros Hshape. unfold load_image. destruct (negb _); [|exact Hshape].
  destruct Hshape as (Hib & Ho & Hw & Hh & Hs & Hb).
  apply draw_image_shape; simpl; try assumption; try reflexivity.
  intros H. discriminate H.
Qed.

Lemma dropEvent_from_shape (urls : list string) (open_dialog : nat -> string) :
  forall (i : nat) (self : ImageProcessor),
  session_shape self ->
  session_shape (dropEvent_from QImage_of_file i urls open_dialog self).
Proof.
  induction urls as [|u urls IH]; intros i self Hshape; simpl; [exact Hshape|].
  apply IH, load_image_shape, Hshape.
Qed.

Lemma save_image_no_slash (save_dialog : string -> string) (write_ok : bool)
    (self self' : ImageProcessor) (out : option SavedFile) :
  no_slash (suggested_filename self) = true ->
  save_image resample save_dialog write_ok self = Ok (self', out) ->
  no_slash (suggested_filename self') = true.
Proof.
  intros Hs. unfold save_image.
  destruct (image self) as [img|]; [destruct (box self) as [b|]|];
    try (intros H; injection H as <- <-; exact Hs).
  destruct (offered_filename (suggested_filename self)) as [name|e] eqn:Eo;
    cbn [bind]; [|intros H; discriminate H].
  cbn [suggested_filename].
  destruct (negb _).
  - destruct (Py.last _) as [nm|e] eqn:El; cbn [bind]; intros H; [|discriminate H].
    injection H as <- <-. simpl. apply (basename_no_slash _ _ El).
  - intros H. injection H as <- <-. simpl. apply (offered_no_slash _ _ Hs Eo).
Qed.

Lemma step_shape (self self' : ImageProcessor) (e : event) :
  session_shape self -> step QImage_of_file resample self e = Ok self' ->
  session_shape self'.
Proof.
  intros Hshape. destruct e; simpl.
  - apply set_image_size_shape, Hshape.
  - intros H; injection H as <-. apply load_image_shape, Hshape.
  - intros H; injection H as <-. apply dropEvent_from_shape, Hshape.
  - destruct (save_image resample save_dialog write_ok self) as [[st out]|e] eqn:Es;
      simpl; intros H; [|discriminate H]. injection H as <-.
    destruct (save_image_frame resample _ _ _ _ _ Es) as (Ew & Eh & Ei & Eo & Eb).
    pose proof Hshape as (Hib & Ho & Hw & Hh & Hs & Hb).
    unfold session_shape. rewrite Ew, Eh, Ei, Eo, Eb.
    split; [|split; [|split; [|split; [|split]]]]; try assumption.
    apply (save_image_no_slash _ _ _ _ _ Hs Es).
  - intros H; injection H as <-. apply on_box_shape; [|exact Hshape].
    intros b Hb. exact Hb.
  - intros H; injection H as <-. apply on_box_shape; [|exact Hshape].
    intros b Hb. exact Hb.
  - intros H; injection H as <-. apply on_box_shape; [|exact Hshape].
    intros b Hb. apply resize_session_box, Hb.
Qed.

Lemma run_shape (es : list event) :
  forall self self' : ImageProcessor,
  session_shape self -> run QImage_of_file resample self es = Ok self' ->
  session_shape self'.
Proof.
  induction es as [|e es IH]; intros self self' Hshape; simpl.
  - intros H; injection H as <-. exact Hshape.
  - destruct (step QImage_of_file resample self e) as [st|x] eqn:Es; simpl;
      [|intros H; discriminate H].
    apply IH. eapply step_shape; eassumption.
Qed.

End SessionShape.

(** X5.  Throughout a session a crop box exists exactly when an image is
    loaded, and [image_original] is the same image as [image]. *)
Theorem box_exactly_with_image
    (QImage_of_file : string -> QImage) (resample : QImage -> QSize -> Z -> Z -> Z)
    (es : list event) (self : ImageProcessor) :
  run QImage_of_file resample ImageProcessor_init es = Ok self ->
  (image self = None <-> box self = None) /\
  image_original self = image self.
Proof.
  intros Hrun.
  destruct (run_shape QImage_of_file resample es _ _ init_shape Hrun)
    as (Hib & Ho & _).
  split; assumption.
Qed.

Lemma box_exactly_with_image_witness :
  (image (saved_as "photo.jpg") = None <-> box (saved_as "photo.jpg") = None) /\
  image_original (saved_as "photo.jpg") = image (saved_as "photo.jpg").
Proof.
  apply (box_exactly_with_image example_files example_resample
           [LoadClicked "/pics/a.png";
            SaveClicked (always ("/out/" ++ "photo.jpg")%string) true]).
  reflexivity.
Defined.

(** X6.  Throughout a session the export target is one of 512, 1024 and
    2048, with the height equal to the width. *)
Theorem target_always_enumerated
    (QImage_of_file : string -> QImage) (resample : QImage -> QSize -> Z -> Z -> Z)
    (es : list event) (self : ImageProcessor) :
  run QImage_of_file resample ImageProcessor_init es = Ok self ->
  In (image_width self) [512; 1024; 2048]%Z /\
  image_height self = image_width self.
Proof.
  intros Hrun.
  destruct (run_shape QImage_of_file resample es _ _ init_shape Hrun)
    as (_ & _ & Hw & Hh & _).
  split; assumption.
Qed.

Lemma target_always_enumerated_witness :
  In (image_width (example_state [SizeSelected "2048 x 2048"])) [512; 1024; 2048]%Z /\
  image_height (example_state [SizeSelected "2048 x 2048"])
    = image_width (example_state [SizeSelected "2048 x 2048"]).
Proof.
  apply (target_always_enumerated example_files example_resample
           [SizeSelected "2048 x 2048"]).
  reflexivity.
Defined.

(** X7.  Throughout a session the suggested filename contains no slash: it
    is a bare file name, never a path. *)
Theorem suggested_filename_is_bare
    (QImage_of_file : string -> QImage) (resample : QImage -> QSize -> Z -> Z -> Z)
    (es : list event) (self : ImageProcessor) :
  run QImage_of_file resample ImageProcessor_init es = Ok self ->
  no_slash (suggested_filename self) = true.
Proof.
  intros Hrun.
  destruct (run_shape QImage_of_file resample es _ _ init_shape Hrun)
    as (_ & _ & _ & _ & Hs & _).
  exact Hs.
Qed.

Lemma suggested_filename_is_bare_witness :
  no_slash (suggested_filename (saved_as "photo.jpg")) = true.
Proof.
  apply (suggested_filename_is_bare example_files example_resample
           [LoadClicked "/pics/a.png";
            SaveClicked (always ("/out/" ++ "photo.jpg")%string) true]).
  reflexivity.
Defined.

(** X8.  In a session the pointer of a resize is read in scene
    coordinates against the box's own rectangle, which starts at the
    item's origin wherever the box is in the scene.  For whole numbers
    (values of [int]): with the handle selected, a resize of a box of side
    [s] with the pointer at [(px, py)] sets both sides to
    [max(px, py) + 20], whatever the position of the box.  So for the
    512 box that [draw_image] places at (255, 255) on a 1024 x 1024 image,
    the pointer on the centre of the handle, (747, 747), changes the side
    to 767. *)
Theorem session_resize_ignores_position
    (QImage_of_file : string -> QImage) (resample : QImage -> QSize -> Z -> Z -> Z)
    (es : list event) (self : ImageProcessor) (b : DraggableRectItem)
    (s px py : Z) :
  run QImage_of_file resample ImageProcessor_init es = Ok self ->
  box self = Some b ->
  handle_selected (resize_handle b) = true ->
  w (rect b) == inject_Z s ->
  int_range s -> int_range px -> int_range py ->
  let p := mkQPointF (inject_Z px) (inject_Z py) in
  w (rect (ResizeHandle_mouseMoveEvent p b)) == inject_Z (Z.max px py + 20) /\
  h (rect (ResizeHandle_mouseMoveEvent p b)) == inject_Z (Z.max px py + 20).
Proof.
  intros Hrun Hb Hsel Hw _ _ _ p.
  destruct (run_shape QImage_of_file resample es _ _ init_shape Hrun)
    as (_ & _ & _ & _ & _ & Hbox).
  destruct (Hbox b Hb) as (Hx & Hy & _ & Hh & Hsq). unfold square in Hsq.
  destruct (resize_whole p b 0 0 s px py Hsel Hh) as [Ew Eh];
    [rewrite Hx; reflexivity | rewrite Hy; reflexivity | exact Hw
    | rewrite <- Hsq; exact Hw | reflexivity | reflexivity |].
  rewrite !Z.sub_0_r in Ew, Eh. split; assumption.
Qed.

Lemma session_resize_ignores_position_witness :
  exists b : DraggableRectItem,
    box (example_state [LoadClicked "/pics/a.png"; SizeSelected "512 x 512";
                        HandleSelected true]) = Some b /\
    pos b = mkQPointF 255 255 /\ w (rect b) == 512 /\
    w (rect (ResizeHandle_mouseMoveEvent (mkQPointF 747 747) b)) == 767.
Proof.
  eexists. split; [reflexivity|]. split; [reflexivity|]. split; [reflexivity|].
  eapply (session_resize_ignores_position example_files example_resample
            [LoadClicked "/pics/a.png"; SizeSelected "512 x 512"; HandleSelected true]
            _ _ 512 747 747);
    try reflexivity; unfold int_range; lia.
Defined.

(** ** Once loaded, always loaded *)

Section KeepsImage.

Variable QImage_of_file : string -> QImage.
Variable resample : QImage -> QSize -> Z -> Z -> Z.

Lemma load_image_keeps (file_path open_dialog : string) (self : ImageProcessor) :
  image self <> None ->
  image (load_image QImage_of_file file_path open_dialog self) <> None.
Proof.
  intros Hi. unfold load_image. destruct (negb _); [|exact Hi].
  match goal with |- image (draw_image true ?s) <> None =>
    destruct (draw_image_frame true s) as (_ & _ & E & _); rewrite E end.
  simpl. discriminate.
Qed.

Lemma dropEvent_from_keeps (urls : list string) (open_dialog : nat -> string) :
  forall (i : nat) (self : ImageProcessor),
  image self <> None ->
  image (dropEvent_from QImage_of_file i urls open_dialog self) <> None.
Proof.
  induction urls as [|u urls IH]; intros i self Hi; simpl; [exact Hi|].
  apply IH, load_image_keeps, Hi.
Qed.

Lemma on_box_image (f : DraggableRectItem -> DraggableRectItem)
    (self : ImageProcessor) : image (on_box f self) = image self.
Proof. unfold on_box. destruct (box self); reflexivity. Qed.

Lemma step_keeps (self self' : ImageProcessor) (e : event) :
  image self <> None -> step QImage_of_file resample self e = Ok self' ->
  image self' <> None.
Proof.
  intros Hi. destruct e; simpl.
  - unfold set_image_size.
    destruct (String.eqb size "512 x 512");
      [|destruct (String.eqb size "1024 x 1024");
        [|destruct (String.eqb size "2048 x 2048")]];
      cbn [bind]; intros H; try discriminate H; injection H as <-;
      match goal with |- image (draw_image true ?s) <> None =>
        destruct (draw_image_frame true s) as (_ & _ & E & _); rewrite E end;
      exact Hi.
  - intros H; injection H as <-. apply load_image_keeps, Hi.
  - intros H; injection H as <-. apply dropEvent_from_keeps, Hi.
  - destruct (save_image resample save_dialog write_ok self) as [[st out]|e] eqn:Es;
      simpl; intros H; [|discriminate H]. injection H as <-.
    destruct (save_image_frame resample _ _ _ _ _ Es) as (_ & _ & Ei & _).
    rewrite Ei. exact Hi.
  - intros H; injection H as <-. rewrite on_box_image. exact Hi.
  - intros H; injection H as <-. rewrite on_box_image. exact Hi.
  - intros H; injection H as <-. rewrite on_box_image. exact Hi.
Qed.

Lemma run_keeps (es : list event) :
  forall self self' : ImageProcessor,
  image self <> None -> run QImage_of_file resample self es = Ok self' ->
  image self' <> None.
Proof.
  induction es as [|e es IH]; intros self self' Hi; simpl.
  - intros H; injection H as <-. exact Hi.
  - destruct (step QImage_of_file resample self e) as [st|x] eqn:Es; simpl;
      [|intros H; discriminate H].
    apply IH. eapply step_keeps; eassumption.
Qed.

End KeepsImage.

(** X9.  No event unloads the image: once an image is loaded it stays
    loaded whatever happens next, and from then on the event filter of the
    canvas changes nothing and hands every event on.  Before that, a mouse
    press on the canvas viewport is handled as a click on "Load Image", and
    is swallowed even when the dialog is cancelled. *)
Theorem image_stays_loaded
    (QImage_of_file : string -> QImage) (resample : QImage -> QSize -> Z -> Z -> Z)
    (es : list event) (self self' : ImageProcessor) :
  (image self <> None ->
   run QImage_of_file resample self es = Ok self' ->
   image self' <> None /\
   forall (on_viewport is_press : bool) (open_dialog : string),
     eventFilter QImage_of_file on_viewport is_press open_dialog self'
       = (self', None)) /\
  (image self = None ->
   forall open_dialog : string,
     eventFilter QImage_of_file true true open_dialog self
       = (load_image QImage_of_file "" open_dialog self, Some true) /\
     eventFilter QImage_of_file true true "" self = (self, Some true)).
Proof.
  split.
  - intros Hi Hrun.
    pose proof (run_keeps QImage_of_file resample es self self' Hi Hrun) as Hi'.
    split; [exact Hi'|]. intros v pr dlg. unfold eventFilter.
    destruct (image self'); [reflexivity | contradiction Hi'; reflexivity].
  - intros Hi dlg. unfold eventFilter. rewrite Hi. split; reflexivity.
Qed.

Lemma image_stays_loaded_witness :
  image (example_state [LoadClicked "/pics/a.png"; SizeSelected "512 x 512";
                        SaveClicked (always "") true]) <> None /\
  eventFilter example_files true true "" ImageProcessor_init
    = (ImageProcessor_init, Some true).
Proof.
  split.
  - destruct (image_stays_loaded example_files example_resample
                [SizeSelected "512 x 512"; SaveClicked (always "") true]
                (example_state [LoadClicked "/pics/a.png"])
                (example_state [LoadClicked "/pics/a.png"; SizeSelected "512 x 512";
                                SaveClicked (always "") true])) as [H _].
    apply H; [discriminate | reflexivity].
  - destruct (image_stays_loaded example_files example_resample []
                ImageProcessor_init ImageProcessor_init) as [_ H].
    apply (H eq_refl ""%string).
Defined.

(** ** The name extracted from the chosen path *)

Local Open Scope string_scope.

Lemma split_no_sep (sep : ascii) (s : string) :
  all_chars (fun c => negb (Ascii.eqb c sep)) s = true -> Py.split sep s = [s].
Proof.
  induction s as [|c s IH]; simpl; intros H; [reflexivity|].
  apply andb_true_iff in H as [Hc Hs]. apply negb_true_iff in Hc.
  rewrite Hc, (IH Hs). reflexivity.
Qed.

Lemma split_joined (sep : ascii) (name : string) :
  all_chars (fun c => negb (Ascii.eqb c sep)) name = true ->
  forall dir : string,
  exists (first : string) (middle : list string),
    Py.split sep (dir ++ String sep name) = (first :: middle ++ [name])%list.
Proof.
  intros Hname. induction dir as [|c dir IH]; simpl.
  - rewrite Ascii.eqb_refl, (split_no_sep sep name Hname). exists "", []. reflexivity.
  - destruct IH as (first & middle & E). rewrite E.
    destruct (Ascii.eqb c sep).
    + exists "", (first :: middle). reflexivity.
    + exists (String c first), middle. reflexivity.
Qed.

Lemma last_snoc {A : Type} (l : list A) (a : A) : Py.last (l ++ [a])%list = Ok a.
Proof.
  induction l as [|x l IH]; [reflexivity|].
  simpl. destruct (l ++ [a])%list eqn:E; [destruct l; discriminate E | exact IH].
Qed.

Lemma basename_joined (dir name : string) :
  no_slash name = true ->
  Py.last (Py.split "/" (in_folder dir name)) = Ok name.
Proof.
  intros Hname. unfold in_folder.
  change ("/" ++ name) with (String "/" name).
  destruct (split_joined "/" name Hname dir) as (first & middle & E).
  rewrite E. apply (last_snoc (first :: middle) name).
Qed.

Lemma in_folder_not_empty (dir name : string) : in_folder dir name <> "".
Proof. unfold in_folder. destruct dir; discriminate. Qed.

(** X10.  Line 387 recovers the file name from the chosen path: for a name
    without slash saved in any folder, the last component of
    [folder/name] is the name.  So, in a session with an image loaded, a
    save in any folder under the offered name leaves the offered name as
    the suggested filename and shows "Saved!".  The file is written there
    when the file system accepts it and the scaled crop is not empty; when
    the scaled crop is empty nothing is written, and the name and the
    message are set all the same. *)
Theorem save_under_offered_name
    (QImage_of_file : string -> QImage) (resample : QImage -> QSize -> Z -> Z -> Z)
    (es : list event) (self : ImageProcessor) (dir offered : string)
    (write_ok : bool) :
  (forall name : string,
      no_slash name = true ->
      Py.last (Py.split "/" (in_folder dir name)) = Ok name) /\
  (run QImage_of_file resample ImageProcessor_init es = Ok self ->
   image self <> None ->
   offered_filename (suggested_filename self) = Ok offered ->
   exists (img : QImage) (b : DraggableRectItem) (self' : ImageProcessor)
          (out : option SavedFile),
     image self = Some img /\ box self = Some b /\
     save_image resample (in_folder dir) write_ok self = Ok (self', out) /\
     suggested_filename self' = offered /\
     message_label self' = "Saved!" /\
     (write_ok = true ->
      QImage_isNull (export_image resample self img b) = false ->
      out = Some (mkSavedFile (in_folder dir offered) "JPEG"
                    (export_image resample self img b))) /\
     (QImage_isNull (export_image resample self img b) = true -> out = None)).
Proof.
  split; [intros name; apply basename_joined|].
  intros Hrun Hi Ho.
  destruct (run_shape QImage_of_file resample es _ _ init_shape Hrun)
    as (Hib & _ & _ & _ & Hs & _).
  destruct (image self) as [img|] eqn:Ei; [|contradiction Hi; reflexivity].
  destruct (box self) as [b|] eqn:Eb;
    [|destruct Hib as [_ Hib]; specialize (Hib eq_refl); discriminate Hib].
  assert (Hkeep : keeps_offered_name (in_folder dir) offered).
  { split; [apply in_folder_not_empty|].
    apply basename_joined, (offered_no_slash _ _ Hs Ho). }
  exists img, b.
  rewrite (save_image_kept resample (in_folder dir) write_ok self img b offered
             Ei Eb Ho Hkeep).
  eexists; eexists.
  split; [reflexivity|]. split; [reflexivity|]. split; [reflexivity|].
  split; [reflexivity|]. split; [reflexivity|].
  unfold written_file. split.
  - intros -> ->. reflexivity.
  - intros ->. destruct write_ok; reflexivity.
Qed.

Lemma save_under_offered_name_witness :
  Py.last (Py.split "/" (in_folder "/home/u/out" "photo.jpg")) = Ok "photo.jpg" /\
  exists (self' : ImageProcessor) (file : SavedFile),
    save_image example_resample (in_folder "/home/u/out") true
      (example_state [LoadClicked "/pics/a.png"]) = Ok (self', Some file) /\
    saved_path file = "/home/u/out/image_001.jpg" /\
    suggested_filename self' = "image_001.jpg" /\
    message_label self' = "Saved!".
Proof.
  destruct (save_under_offered_name example_files example_resample
              [LoadClicked "/pics/a.png"] (example_state [LoadClicked "/pics/a.png"])
              "/home/u/out" "image_001.jpg" true) as [Hbase Hsave].
  split.
  - apply Hbase. reflexivity.
  - destruct Hsave as (img & b & self' & out & Hi & Hb & Hs & Hn & Hm & Hw & _);
      [reflexivity | discriminate | reflexivity |].
    injection Hi as <-. injection Hb as <-.
    exists self'. eexists.
    split; [rewrite Hs, Hw; reflexivity|].
    split; [reflexivity|]. split; [exact Hn | exact Hm].
Defined.

(** ** Which names the pattern of line 379 accepts *)

Lemma append_assoc_string (s t u : string) : (s ++ t) ++ u = s ++ (t ++ u).
Proof. induction s as [|c s IH]; simpl; [reflexivity | rewrite IH; reflexivity]. Qed.

Lemma lang_sym_cat_inv (p : ascii -> bool) (r : Re.regex) (u : string) :
  Re.lang (Re.Cat (Re.Sym p) r) u ->
  exists (c : ascii) (v : string), u = String c v /\ p c = true /\ Re.lang r v.
Proof.
  intros H. inversion H as [ | | r1 r2 a b Ha Hb | | | | ]; subst.
  inversion Ha; subst. exists c, b. repeat split; assumption.
Qed.

Lemma lang_star_sym_inv (p : ascii -> bool) (u : string) :
  Re.lang (Re.Star (Re.Sym p)) u -> all_chars p u = true.
Proof.
  intros H. remember (Re.Star (Re.Sym p)) as r eqn:Er.
  induction H as [ | q c Hq | r1 r2 a b Ha IHa Hb IHb | r1 r2 a Ha IHa
                 | r1 r2 a Ha IHa | r1 | r1 a b Ha IHa Hb IHb ];
    try discriminate Er.
  - reflexivity.
  - injection Er as ->. inversion Ha; subst. simpl.
    rewrite (IHb eq_refl). rewrite H0. reflexivity.
Qed.

Lemma pattern_inv (u : string) :
  Re.lang filename_pattern u ->
  exists (ws : string) (d1 d2 d3 c : ascii),
    u = ws ++ String "_" (String d1 (String d2 (String d3 (String c "jpg")))) /\
    ws <> "" /\ all_chars Re.is_word ws = true /\
    Py.is_digit d1 = true /\ Py.is_digit d2 = true /\ Py.is_digit d3 = true /\
    Re.is_dot c = true.
Proof.
  unfold filename_pattern, Re.plus. intros H.
  inversion H as [ | | r1 r2 ws tail Hws Htail | | | | ]; subst.
  apply lang_sym_cat_inv in Hws as (w1 & ws' & -> & Hw1 & Hstar).
  apply lang_star_sym_inv in Hstar.
  apply lang_sym_cat_inv in Htail as (us & t1 & -> & Hus & Htail).
  apply Ascii.eqb_eq in Hus. subst us.
  inversion Htail as [ | | r1 r2 ds t2 Hds Hdot | | | | ]; subst.
  simpl in Hds.
  apply lang_sym_cat_inv in Hds as (d1 & x1 & -> & Hd1 & Hds).
  apply lang_sym_cat_inv in Hds as (d2 & x2 & -> & Hd2 & Hds).
  apply lang_sym_cat_inv in Hds as (d3 & x3 & -> & Hd3 & Hds).
  inversion Hds; subst.
  apply lang_sym_cat_inv in Hdot as (c & t3 & -> & Hc & Hjpg).
  simpl in Hjpg.
  apply lang_sym_cat_inv in Hjpg as (j & y1 & -> & Hj & Hjpg).
  apply lang_sym_cat_inv in Hjpg as (pp & y2 & -> & Hp & Hjpg).
  apply lang_sym_cat_inv in Hjpg as (g & y3 & -> & Hg & Hjpg).
  inversion Hjpg; subst.
  apply Ascii.eqb_eq in Hj, Hp, Hg. subst j pp g.
  exists (String w1 ws'), d1, d2, d3, c.
  split; [reflexivity|]. split; [discriminate|].
  split; [simpl; rewrite Hw1, Hstar; reflexivity|].
  repeat split; assumption.
Qed.

Lemma pattern_intro (ws : string) (d1 d2 d3 c : ascii) :
  ws <> "" -> all_chars Re.is_word ws = true ->
  Py.is_digit d1 = true -> Py.is_digit d2 = true -> Py.is_digit d3 = true ->
  Re.is_dot c = true ->
  Re.lang filename_pattern
    (ws ++ String "_" (String d1 (String d2 (String d3 (String c "jpg"))))).
Proof.
  intros Hne Hw H1 H2 H3 Hc. unfold filename_pattern.
  apply Re.lang_cat.
  - destruct ws as [|w ws]; [contradiction Hne; reflexivity|].
    simpl in Hw. apply andb_true_iff in Hw as [Hw1 Hw].
    apply (Re.lang_cat _ _ (String w "") ws);
      [constructor; exact Hw1 | apply lang_star_sym, Hw].
  - apply lang_sym_cons; [reflexivity|].
    apply (Re.lang_cat _ _ (String d1 (String d2 (String d3 ""))) (String c "jpg")).
    + simpl. repeat (apply lang_sym_cons; [assumption|]). constructor.
    + apply lang_sym_cons; [exact Hc|]. simpl.
      repeat (apply lang_sym_cons; [reflexivity|]). constructor.
Qed.

Lemma match_numbered_prefix (s : string) :
  Re.match_ filename_pattern s = true <-> numbered_prefix s.
Proof.
  rewrite match_spec. unfold numbered_prefix. split.
  - intros (u & v & -> & Hl).
    destruct (pattern_inv u Hl) as (ws & d1 & d2 & d3 & c & -> & Hrest).
    exists ws, d1, d2, d3, c, v. split; [|exact Hrest].
    rewrite append_assoc_string. reflexivity.
  - intros (ws & d1 & d2 & d3 & c & rest & -> & Hne & Hw & H1 & H2 & H3 & Hc).
    exists (ws ++ String "_" (String d1 (String d2 (String d3 (String c "jpg"))))), rest.
    split; [rewrite append_assoc_string; reflexivity|].
    apply pattern_intro; assumption.
Qed.

(** ** Where the counter stops, and where line 380 fails *)

Lemma first_underscore (stem : string) :
  all_chars (fun c => negb (Ascii.eqb c "_")) stem = true ->
  forall ws r1 r2 : string,
  stem ++ String "_" r1 = ws ++ String "_" r2 ->
  (ws = stem /\ r1 = r2) \/ (exists ws' : string, r1 = ws' ++ String "_" r2).
Proof.
  induction stem as [|c stem IH]; simpl; intros Hs ws r1 r2 E.
  - destruct ws as [|a ws']; simpl in E.
    + injection E as <-. left. split; reflexivity.
    + injection E as _ ->. right. exists ws'. reflexivity.
  - apply andb_true_iff in Hs as [Hc Hs]. destruct ws as [|a ws']; simpl in E.
    + injection E as -> _. discriminate Hc.
    + injection E as <- E. destruct (IH Hs ws' r1 r2 E) as [[-> ->] | Hr].
      * left. split; reflexivity.
      * right. exact Hr.
Qed.

Lemma thousand_unmatched (stem : string) :
  is_stem stem = true ->
  Re.match_ filename_pattern (stem ++ "_1000.jpg") = false.
Proof.
  intros Hs. destruct (is_stem_inv stem Hs) as (_ & _ & Hu).
  destruct (Re.match_ filename_pattern (stem ++ "_1000.jpg")) eqn:E; [|reflexivity].
  apply match_numbered_prefix in E
    as (ws & d1 & d2 & d3 & c & rest & Heq & _).
  change (stem ++ "_1000.jpg") with (stem ++ String "_" "1000.jpg") in Heq.
  destruct (first_underscore stem Hu ws _ _ Heq) as [[_ Hr] | [ws' Hr]].
  - simpl in Hr. discriminate Hr.
  - assert (Hn : all_chars (fun x => negb (Ascii.eqb x "_")) "1000.jpg" = true)
      by reflexivity.
    rewrite Hr, all_chars_app in Hn. simpl in Hn.
    rewrite andb_false_r in Hn. discriminate Hn.
Qed.

(** X12.  The counter stops at 1000.  From [stem_999.jpg] the offered name
    is [stem_1000.jpg]; that name no longer matches the pattern of line
    379, so from then on the very same name is offered at every save. *)
Theorem counter_stops_at_1000 (stem : string) :
  is_stem stem = true ->
  offered_filename (numbered_name stem "9" "9" "9") = Ok (stem ++ "_1000.jpg") /\
  Re.match_ filename_pattern (stem ++ "_1000.jpg") = false /\
  offered_filename (stem ++ "_1000.jpg") = Ok (stem ++ "_1000.jpg").
Proof.
  intros Hs. split; [|split].
  - rewrite (incremented_numbered_name stem "9" "9" "9" Hs eq_refl eq_refl eq_refl).
    reflexivity.
  - apply thousand_unmatched, Hs.
  - apply offered_unmatched, thousand_unmatched, Hs.
Qed.

Lemma counter_stops_at_1000_witness :
  offered_filename "image_999.jpg" = Ok "image_1000.jpg" /\
  Re.match_ filename_pattern "image_1000.jpg" = false /\
  offered_filename "image_1000.jpg" = Ok "image_1000.jpg".
Proof. apply (counter_stops_at_1000 "image"). reflexivity. Defined.

Lemma is_stem_char_not_dot (c : ascii) :
  is_stem_char c = true -> negb (Ascii.eqb c ".") = true.
Proof.
  destruct c as [[] [] [] [] [] [] [] []]; vm_compute; intros H;
    try discriminate H; reflexivity.
Qed.

Lemma underscore_stem_offered (a b : string) (d1 d2 d3 : ascii) (e : exn) :
  is_stem a = true -> is_stem b = true ->
  Py.is_digit d1 = true -> Py.is_digit d2 = true -> Py.is_digit d3 = true ->
  Py.int b = Raise e ->
  offered_filename (a ++ "_" ++ numbered_name b d1 d2 d3) = Raise e.
Proof.
  intros Ha Hb H1 H2 H3 He.
  destruct (is_stem_inv a Ha) as (Hane & Haw & Hau).
  destruct (is_stem_inv b Hb) as (Hbne & Hbw & Hbu).
  unfold offered_filename, numbered_name.
  change (a ++ "_" ++ b ++ "_" ++ String d1 (String d2 (String d3 ".jpg")))
    with (a ++ String "_" (b ++ String "_" (String d1 (String d2 (String d3 ".jpg"))))).
  assert (Hm : Re.match_ filename_pattern
                 (a ++ String "_" (b ++ String "_"
                    (String d1 (String d2 (String d3 ".jpg"))))) = true).
  { apply match_numbered_prefix.
    exists (a ++ String "_" b), d1, d2, d3, "."%char, "".
    split; [rewrite append_assoc_string; reflexivity|].
    split; [destruct a; [contradiction Hane; reflexivity | discriminate]|].
    split; [rewrite all_chars_app; simpl; rewrite Haw, Hbw; reflexivity|].
    repeat split; try assumption; reflexivity. }
  rewrite Hm. unfold incremented_filename.
  rewrite (split_stem "_" a _ Hau), (split_stem "_" b _ Hbu).
  change (Py.index (a :: b :: Py.split "_" (String d1 (String d2 (String d3 ".jpg")))) 0)
    with (Ok a).
  change (Py.index (a :: b :: Py.split "_" (String d1 (String d2 (String d3 ".jpg")))) 1)
    with (Ok b).
  cbn [bind].
  rewrite (split_no_sep "." b).
  - change (Py.index [b] 0) with (Ok b). cbn [bind]. rewrite He. reflexivity.
  - apply (all_chars_impl is_stem_char); [apply is_stem_char_not_dot|].
    unfold is_stem in Hb. apply andb_true_iff in Hb as [_ Hb]. exact Hb.
Qed.

(** X13.  A stem with an underscore breaks the save.  When the suggested
    name is [a_b_NNN.jpg] and [b] is not an integer literal (as in
    "my_image_001.jpg"), the name matches the pattern, line 380 reads [b]
    as the counter, and [save_image] raises the [ValueError] of [int(b)]
    before any dialog is shown: whatever the dialog would answer, nothing
    is written. *)
Theorem underscore_stem_raises
    (resample : QImage -> QSize -> Z -> Z -> Z) (save_dialog : string -> string)
    (write_ok : bool) (self : ImageProcessor) (img : QImage) (bx : DraggableRectItem)
    (a b : string) (d1 d2 d3 : ascii) (e : exn) :
  image self = Some img -> box self = Some bx ->
  is_stem a = true -> is_stem b = true ->
  Py.is_digit d1 = true -> Py.is_digit d2 = true -> Py.is_digit d3 = true ->
  Py.int b = Raise e ->
  suggested_filename self = a ++ "_" ++ numbered_name b d1 d2 d3 ->
  Re.match_ filename_pattern (suggested_filename self) = true /\
  save_image resample save_dialog write_ok self = Raise e.
Proof.
  intros Hi Hbx Ha Hb H1 H2 H3 He Hname.
  pose proof (underscore_stem_offered a b d1 d2 d3 e Ha Hb H1 H2 H3 He) as Ho.
  rewrite <- Hname in Ho. split.
  - unfold offered_filename in Ho.
    destruct (Re.match_ filename_pattern (suggested_filename self));
      [reflexivity | discriminate Ho].
  - apply (save_image_raise resample save_dialog write_ok self img bx e Hi Hbx Ho).
Qed.

Lemma underscore_stem_raises_witness :
  save_image example_resample (in_folder "/out") true (saved_as "my_image_001.jpg")
    = Raise (ValueError "invalid literal for int() with base 10: 'image'").
Proof.
  eapply (underscore_stem_raises example_resample (in_folder "/out") true
            (saved_as "my_image_001.jpg") _ _ "my" "image" "0" "0" "1");
    reflexivity.
Defined.

(** ** The region cropped under a box at whole coordinates *)

Local Open Scope Q_scope.

Lemma qRound_integer (q : Q) (n : Z) : q == inject_Z n -> qRound q = n.
Proof.
  destruct q as [a d]. unfold Qeq. simpl. rewrite Z.mul_1_r. intros ->.
  unfold qRound, Qle_bool, to_int, Qminus, Qplus, Qopp. simpl Qnum. simpl Qden.
  rewrite Pos2Z.inj_mul.
  assert (Hd : (0 < Z.pos d)%Z) by reflexivity.
  destruct (Z.leb_spec (0 * Z.pos d) (n * Z.pos d * 1)) as [Hn | Hn].
  - assert (Hn' : (0 <= n)%Z) by nia.
    symmetry. apply (Z.quot_unique _ _ n (Z.pos d)); nia.
  - assert (Hn' : (n < 0)%Z) by nia.
    replace (n * Z.pos d * 2 + Z.neg d)%Z
      with (- ((- n) * Z.pos d * 2 + Z.pos d))%Z by lia.
    rewrite Z.quot_opp_l by nia.
    rewrite <- (Z.quot_unique ((- n) * Z.pos d * 2 + Z.pos d) (Z.pos d * 2) (- n)
                  (Z.pos d)); nia.
Qed.

Lemma inject_Z_sub (x y : Z) : inject_Z (x - y) == inject_Z x - inject_Z y.
Proof. unfold Z.sub. rewrite inject_Z_plus, inject_Z_opp. reflexivity. Qed.

Lemma crop_rect_integer (b : DraggableRectItem) (x y s t : Z) :
  xp (rect b) == 0 -> yp (rect b) == 0 ->
  w (rect b) == inject_Z s -> h (rect b) == inject_Z t ->
  pen_width b == 20 ->
  ptf_x (pos b) == inject_Z x -> ptf_y (pos b) == inject_Z y ->
  crop_rect b = QRect_xywh (x - 10) (y - 10) (s + 20) (t + 20).
Proof.
  intros Hxp Hyp Hw Hh Hpen Hx Hy.
  unfold crop_rect, boundingRect, boundingRect_of.
  assert (Hhalf : pen_width b / 2 == 10) by (rewrite Hpen; reflexivity).
  destruct (Qle_bool (pen_width b / 2) 0) eqn:E.
  { apply Qle_bool_iff in E. rewrite Hhalf in E. unfold Qle in E. simpl in E. lia. }
  set (half := pen_width b / 2) in *.
  unfold QRectF_toRect, QRectF_translate, QRectF_adjusted. cbn [xp yp w h].
  set (X := xp (rect b) + - half + ptf_x (pos b)).
  set (Y := yp (rect b) + - half + ptf_y (pos b)).
  assert (EX : X == inject_Z (x - 10)).
  { unfold X. rewrite inject_Z_sub. change (inject_Z 10) with 10. lra. }
  assert (EY : Y == inject_Z (y - 10)).
  { unfold Y. rewrite inject_Z_sub. change (inject_Z 10) with 10. lra. }
  rewrite (qRound_integer X (x - 10) EX), (qRound_integer Y (y - 10) EY).
  assert (DX : (X - inject_Z (x - 10)) / 2 == 0) by (rewrite EX; field).
  assert (DY : (Y - inject_Z (y - 10)) / 2 == 0) by (rewrite EY; field).
  rewrite (qRound_integer _ (s + 20)), (qRound_integer _ (t + 20)).
  - reflexivity.
  - rewrite DY, inject_Z_plus. change (inject_Z 20) with 20. lra.
  - rewrite DX, inject_Z_plus. change (inject_Z 20) with 20. lra.
Qed.

Lemma fresh_box_crop_rect (img : QImage) (side : Z) :
  crop_rect (fresh_box img side)
    = QRect_xywh (Z.quot (img_width img - 1) 2 - side / 2 - 10)
                 (Z.quot (img_height img - 1) 2 - side / 2 - 10)
                 (side + 20) (side + 20).
Proof.
  rewrite (crop_rect_integer (fresh_box img side)
             (Z.quot (img_width img - 1) 2 - side / 2)
             (Z.quot (img_height img - 1) 2 - side / 2) side side);
    reflexivity.
Qed.

(** X14.  Right after an image is drawn for the target side [side] (on
    load and on every size selection), the region that a save crops is the
    square of side [side + 20] whose corner is at
    [((W - 1) quot 2 - side // 2 - 10, (H - 1) quot 2 - side // 2 - 10)],
    for an image of [W x H] pixels: the box, extended by the 10 units of
    half the pen width on every side. *)
Theorem fresh_box_crop_region (self : ImageProcessor) (img : QImage) :
  image self = Some img ->
  image_height self = image_width self ->
  exists b : DraggableRectItem,
    box (draw_image true self) = Some b /\
    crop_rect b
      = QRect_xywh (Z.quot (img_width img - 1) 2 - image_width self / 2 - 10)
                   (Z.quot (img_height img - 1) 2 - image_width self / 2 - 10)
                   (image_width self + 20) (image_width self + 20).
Proof.
  intros Hi Hh. exists (fresh_box img (image_width self)).
  split; [apply draw_image_fresh; assumption | apply fresh_box_crop_rect].
Qed.

Lemma fresh_box_crop_region_witness :
  exists b : DraggableRectItem,
    box (draw_image true (example_state [LoadClicked "/pics/small.png"])) = Some b /\
    crop_rect b = QRect_xywh (-473) (-473) 1044 1044.
Proof.
  apply (fresh_box_crop_region (example_state [LoadClicked "/pics/small.png"])
           (example_image 100 100)); reflexivity.
Defined.

(** ** The size of what is written *)

Section Scaled.

Variable resample : QImage -> QSize -> Z -> Z -> Z.

Lemma scaled_size (img : QImage) (tw th : Z) :
  QImage_isNull img = false -> (1 <= tw)%Z -> (1 <= th)%Z ->
  let s := QSize_scaled_keep (QImage_size img) (mkQSize tw th) in
  img_width (QImage_scaled_keep resample img tw th) = Z.max (sz_width s) 1 /\
  img_height (QImage_scaled_keep resample img tw th) = Z.max (sz_height s) 1.
Proof.
  intros Hn Htw Hth s. unfold QImage_scaled_keep. rewrite Hn.
  destruct (Z.ltb_spec tw 1); [lia|]. destruct (Z.ltb_spec th 1); [lia|].
  cbn [orb]. fold s.
  destruct ((Z.max (sz_width s) 1 =? img_width img)%Z
            && (Z.max (sz_height s) 1 =? img_height img)%Z) eqn:E.
  - apply andb_true_iff in E as [E1 E2].
    apply Z.eqb_eq in E1, E2. split; congruence.
  - split; reflexivity.
Qed.

Lemma not_null_positive (img : QImage) :
  QImage_isNull img = false -> (0 < img_width img)%Z /\ (0 < img_height img)%Z.
Proof.
  unfold QImage_isNull. intros H. apply orb_false_iff in H as [H1 H2].
  apply Z.leb_gt in H1, H2. split; assumption.
Qed.

Lemma scaled_within (img : QImage) (tw th : Z) :
  QImage_isNull img = false -> (1 <= tw)%Z -> (1 <= th)%Z ->
  (1 <= img_width (QImage_scaled_keep resample img tw th) <= tw)%Z /\
  (1 <= img_height (QImage_scaled_keep resample img tw th) <= th)%Z /\
  (img_width (QImage_scaled_keep resample img tw th) = tw \/
   img_height (QImage_scaled_keep resample img tw th) = th).
Proof.
  intros Hn Htw Hth.
  destruct (scaled_size img tw th Hn Htw Hth) as [-> ->].
  destruct (not_null_positive img Hn) as [Hw Hh].
  unfold QSize_scaled_keep, QImage_size. cbn [sz_width sz_height].
  destruct (Z.eqb_spec (img_width img) 0); [lia|].
  destruct (Z.eqb_spec (img_height img) 0); [lia|]. cbn [orb].
  rewrite !Z.quot_div_nonneg by nia.
  pose proof (Z.div_pos (th * img_width img) (img_height img) ltac:(nia) Hh) as P1.
  pose proof (Z.div_pos (tw * img_height img) (img_width img) ltac:(nia) Hw) as P2.
  destruct (Z.leb_spec (th * img_width img / img_height img) tw) as [Hle | Hgt];
    cbn [sz_width sz_height].
  - split; [lia|]. split; [lia|]. right. lia.
  - assert (Hb : (tw * img_height img / img_width img <= th)%Z).
    { apply Z.div_le_upper_bound; [exact Hw|].
      assert (Hk : ((tw + 1) * img_height img <= th * img_width img)%Z).
      { pose proof (Z.mul_div_le (th * img_width img) (img_height img) Hh). nia. }
      nia. }
    split; [lia|]. split; [lia|]. left. lia.
Qed.


Lemma save_image_file (save_dialog : string -> string) (write_ok : bool)
    (self self' : ImageProcessor) (img : QImage) (b : DraggableRectItem)
    (file : SavedFile) :
  image self = Some img -> box self = Some b ->
  save_image resample save_dialog write_ok self = Ok (self', Some file) ->
  saved_image file
    = QImage_scaled_keep resample (cropped_image img b)
        (image_width self) (image_height self) /\
  saved_format file = "JPEG"%string /\
  message_label self' = "Saved!"%string.
Proof.
  intros Hi Hb Hsave.
  destruct (save_image_written resample save_dialog write_ok self self' file Hsave)
    as (img' & b' & offered & Hi' & Hb' & _ & _ & _ & -> & _ & _ & Hm).
  rewrite Hi in Hi'. injection Hi' as <-. rewrite Hb in Hb'. injection Hb' as <-.
  split; [reflexivity|]. split; [reflexivity | exact Hm].
Qed.

End Scaled.



(** X16.  Whenever a save writes a file from a crop that is not empty, the
    written image fits the target: its width and height are at least 1 and
    at most the target width and height, and one of them is exactly the
    target (the aspect ratio of the crop is kept). *)
Theorem saved_image_fits_target
    (resample : QImage -> QSize -> Z -> Z -> Z) (save_dialog : string -> string)
    (write_ok : bool) (self self' : ImageProcessor) (img : QImage)
    (b : DraggableRectItem) (file : SavedFile) :
  image self = Some img -> box self = Some b ->
  QImage_isNull (cropped_image img b) = false ->
  (1 <= image_width self)%Z -> (1 <= image_height self)%Z ->
  save_image resample save_dialog write_ok self = Ok (self', Some file) ->
  (1 <= img_width (saved_image file) <= image_width self)%Z /\
  (1 <= img_height (saved_image file) <= image_height self)%Z /\
  (img_width (saved_image file) = image_width self \/
   img_height (saved_image file) = image_height self).
Proof.
  intros Hi Hb Hn Hw Hh Hsave.
  destruct (save_image_file resample save_dialog write_ok self self' img b file
              Hi Hb Hsave) as (-> & _ & _).
  apply scaled_within; assumption.
Qed.

Lemma saved_image_fits_target_witness :
  exists (self' : ImageProcessor) (file : SavedFile),
    save_image example_resample (in_folder "/out") true
      (example_state [LoadClicked "/pics/a.png"; BoxDragged (1 # 2) 0])
      = Ok (self', Some file) /\
    (1 <= img_width (saved_image file) <= 1024)%Z /\
    (1 <= img_height (saved_image file) <= 1024)%Z.
Proof.
  eexists; eexists. split; [reflexivity|].
  edestruct (saved_image_fits_target example_resample (in_folder "/out") true
               (example_state [LoadClicked "/pics/a.png"; BoxDragged (1 # 2) 0]))
    as (Hw & Hh & _);
    [reflexivity | reflexivity | reflexivity | | | reflexivity |].
  - simpl. lia.
  - simpl. lia.
  - split; [exact Hw | exact Hh].
Defined.

(** X17.  A crop region that lies inside the image is copied exactly: the
    result has the size of the region and each of its pixels is the pixel
    of the image at the same place of the region; nothing is padded. *)
Theorem crop_inside_is_exact (img : QImage) (b : DraggableRectItem) :
  let r := crop_rect b in
  (0 <= QRect_x r)%Z -> (0 <= QRect_y r)%Z ->
  (0 < QRect_width r)%Z -> (0 < QRect_height r)%Z ->
  (QRect_x r + QRect_width r <= img_width img)%Z ->
  (QRect_y r + QRect_height r <= img_height img)%Z ->
  img_width (cropped_image img b) = QRect_width r /\
  img_height (cropped_image img b) = QRect_height r /\
  forall i j : Z,
    (0 <= i < QRect_width r)%Z -> (0 <= j < QRect_height r)%Z ->
    img_pixel (cropped_image img b) i j
      = img_pixel img (QRect_x r + i)%Z (QRect_y r + j)%Z.
Proof.
  intros r Hx Hy Hw Hh Hxw Hyh.
  assert (Hn : QImage_isNull img = false).
  { unfold QImage_isNull. apply orb_false_iff. split; apply Z.leb_gt; lia. }
  rewrite cropped_image_copy. fold r. rewrite (copy_positive img r Hn Hw Hh).
  cbn [img_width img_height img_pixel].
  split; [reflexivity|]. split; [reflexivity|].
  intros i j Hi Hj. unfold inside.
  destruct (Z.leb_spec 0 (QRect_x r + i)); [|lia].
  destruct (Z.ltb_spec (QRect_x r + i) (img_width img)); [|lia].
  destruct (Z.leb_spec 0 (QRect_y r + j)); [|lia].
  destruct (Z.ltb_spec (QRect_y r + j) (img_height img)); [|lia]. reflexivity.
Qed.

Lemma crop_inside_is_exact_witness :
  img_width (cropped_image (example_image 1024 1024) box_512_on_1024) = 532%Z /\
  img_pixel (cropped_image (example_image 1024 1024) box_512_on_1024) 3 4
    = img_pixel (example_image 1024 1024) 248 249.
Proof.
  destruct (crop_inside_is_exact (example_image 1024 1024) box_512_on_1024)
    as (Hw & _ & Hpx); try (vm_compute; intros H; discriminate H); try reflexivity.
  split; [exact Hw|].
  apply (Hpx 3%Z 4%Z); split; try reflexivity; discriminate.
Defined.

(** X18.  A failed write goes unnoticed: when the JPEG file cannot be
    written, [save_image] ends in the same state as after a successful
    write (same suggested filename, status "Saved!"), only no file
    exists. *)
Theorem failed_write_unnoticed
    (resample : QImage -> QSize -> Z -> Z -> Z) (save_dialog : string -> string)
    (self : ImageProcessor) :
  save_image resample save_dialog false self
    = (r <- save_image resample save_dialog true self ;; Ok (fst r, None)).
Proof.
  unfold save_image.
  destruct (image self); [destruct (box self)|]; try reflexivity.
  destruct (offered_filename (suggested_filename self)); cbn [bind]; [|reflexivity].
  destruct (negb _); [|reflexivity].
  destruct (Py.last _); reflexivity.
Qed.

(** X19.  A save changes nothing but the suggested filename and the status
    message: the image, its original, the crop box and the export target
    are the same afterwards, whether a file was written or not. *)
Theorem save_keeps_image_box_target
    (resample : QImage -> QSize -> Z -> Z -> Z) (save_dialog : string -> string)
    (write_ok : bool) (self self' : ImageProcessor) (out : option SavedFile) :
  save_image resample save_dialog write_ok self = Ok (self', out) ->
  image self' = image self /\ image_original self' = image_original self /\
  box self' = box self /\
  image_width self' = image_width self /\ image_height self' = image_height self.
Proof.
  intros H.
  destruct (save_image_frame resample save_dialog write_ok self self' out H)
    as (Hw & Hh & Hi & Ho & Hb).
  repeat split; assumption.
Qed.

Lemma save_keeps_image_box_target_witness :
  exists (self' : ImageProcessor) (out : option SavedFile),
    save_image example_resample (in_folder "/out") true (saved_as "photo.jpg")
      = Ok (self', out) /\
    box self' = box (saved_as "photo.jpg") /\
    image_width self' = image_width (saved_as "photo.jpg").
Proof.
  eexists; eexists. split; [reflexivity|].
  edestruct (save_keeps_image_box_target example_resample (in_folder "/out") true
               (saved_as "photo.jpg")) as (_ & _ & Hb & Hw & _); [reflexivity|].
  split; [exact Hb | exact Hw].
Defined.

(** ** Loading, and selecting a size without an image *)

(** X20.  A load replaces the crop box wholly: when a path is chosen
    (given, or else answered in the dialog) the new box is the one drawn
    for the new image and the current target, whatever the previous box
    was, while the suggested filename, the target and the status message
    are kept; when no path is chosen nothing changes. *)
Theorem load_replaces_box
    (QImage_of_file : string -> QImage) (file_path open_dialog : string)
    (self : ImageProcessor) :
  let chosen := if String.eqb file_path "" then open_dialog else file_path in
  let loaded := load_image QImage_of_file file_path open_dialog self in
  (chosen = ""%string -> loaded = self) /\
  (chosen <> ""%string -> image_height self = image_width self ->
   image loaded = Some (QImage_of_file chosen) /\
   image_original loaded = Some (QImage_of_file chosen) /\
   box loaded = Some (fresh_box (QImage_of_file chosen) (image_width self)) /\
   suggested_filename loaded = suggested_filename self /\
   image_width loaded = image_width self /\
   image_height loaded = image_height self /\
   message_label loaded = message_label self).
Proof.
  intros chosen loaded. unfold loaded, load_image. fold chosen. split.
  - intros ->. reflexivity.
  - intros Hne Hh. apply String.eqb_neq in Hne. rewrite Hne. cbn [negb].
    match goal with |- image (draw_image true ?s) = _ /\ _ =>
      destruct (draw_image_frame true s) as (Ew & Eh & Ei & Es);
      destruct (draw_image_others true s) as (Eo & Em);
      pose proof (draw_image_fresh s (QImage_of_file chosen) eq_refl Hh) as Eb
    end.
    rewrite Ew, Eh, Ei, Es, Eo, Em, Eb. repeat split; reflexivity.
Qed.

Lemma load_replaces_box_witness :
  load_image example_files "" "" (saved_as "photo.jpg") = saved_as "photo.jpg" /\
  box (load_image example_files "/pics/small.png" ""
         (example_state [LoadClicked "/pics/a.png"; BoxDragged 300 (-40)]))
    = Some (fresh_box (example_image 100 100) 1024) /\
  suggested_filename (load_image example_files "/pics/small.png" ""
                        (saved_as "photo.jpg")) = "photo.jpg"%string.
Proof.
  split; [|split].
  - destruct (load_replaces_box example_files "" "" (saved_as "photo.jpg")) as [H _].
    apply H. reflexivity.
  - destruct (load_replaces_box example_files "/pics/small.png" ""
                (example_state [LoadClicked "/pics/a.png"; BoxDragged 300 (-40)]))
      as [_ H].
    destruct H as (_ & _ & Hb & _); [discriminate | reflexivity | exact Hb].
  - destruct (load_replaces_box example_files "/pics/small.png" ""
                (saved_as "photo.jpg")) as [_ H].
    destruct H as (_ & _ & _ & Hs & _); [discriminate | reflexivity | exact Hs].
Defined.

(** X21.  Selecting a size while no image is loaded only records the
    target: nothing is drawn and no box is created. *)
Theorem size_selected_without_image
    (size : string) (side : Z) (self : ImageProcessor) :
  image self = None -> In (size, side) size_targets ->
  set_image_size size self
    = Ok (mkImageProcessor side side None (image_original self) (box self)
            (suggested_filename self) (message_label self)).
Proof.
  intros Hi Hin. rewrite (set_image_size_target size side self Hin).
  unfold draw_image. rewrite Hi. reflexivity.
Qed.

Lemma size_selected_without_image_witness :
  set_image_size "512 x 512" ImageProcessor_init
    = Ok (mkImageProcessor 512 512 None None None "image_000.jpg" "").
Proof.
  apply (size_selected_without_image "512 x 512" 512 ImageProcessor_init);
    [reflexivity | left; reflexivity].
Defined.
